(** * MCPlex: session routing, tool handlers and the client orchestration loop

    A shallow embedding of the TypeScript sources
    - [src/server/index.ts]      (tool handlers, the [transports] table, the
                                  POST / GET / DELETE routes on [/mcp]),
    - [src/server/mcp.tool.ts]   ([createPost], both revisions kept in the file),
    - the client's MCP stub      ([generateUUID], [MCPClientImpl]),
    - the client's planner       ([GeminiService]),
    - the chat container         ([handleSendMessage]).

    Strings are Rocq strings holding the UTF-8 bytes of the JavaScript
    string.  Numbers are the safe integers (magnitude below 2^53, which a
    double holds exactly and prints as its decimal digits), as [Z]; the
    predicate [safe] says that a value holds no other number.  Promises are
    modelled by their settlement ([Resolved] / [Rejected]); sources of
    nondeterminism ([Math.random], [crypto.randomUUID], the wall clock, the
    language model, the Twitter API, the MCP SDK transport) are explicit
    inputs. *)

From Stdlib Require Import ZArith NArith Ascii String List Bool Lia.
From stdpp Require Import base option list strings gmap pretty.

Local Open Scope string_scope.
Local Open Scope Z_scope.
#[local] Set Warnings "-register-all".

(** ** Characters and strings *)

Definition ESC : string := String "027"%char "".
Definition LF : string := String "010"%char "".
Definition DQUOTE : string := String "034"%char "".

Definition code (c : ascii) : N := N_of_ascii c.

(** [s.startsWith(p)], returning what follows the prefix. *)
Fixpoint strip_prefix (p s : string) : option string :=
  match p, s with
  | EmptyString, _ => Some s
  | String a p', String b s' => if Ascii.eqb a b then strip_prefix p' s' else None
  | String _ _, EmptyString => None
  end.

Definition startsWith (s p : string) : bool :=
  match strip_prefix p s with Some _ => true | None => false end.

(** [s.includes(sub)] *)
Fixpoint includes (s sub : string) : bool :=
  startsWith s sub ||
  match s with
  | EmptyString => false
  | String _ s' => includes s' sub
  end.

(** [xs.join(sep)] on strings *)
Fixpoint join (sep : string) (xs : list string) : string :=
  match xs with
  | [] => ""
  | [x] => x
  | x :: rest => x +:+ sep +:+ join sep rest
  end.

(** ** JavaScript values (the JSON-shaped ones, plus [undefined]) *)

Inductive JsValue : Type :=
  | JUndefined
  | JNull
  | JBool (b : bool)
  | JNum (z : Z)
  | JStr (s : string)
  | JArr (items : list JsValue)
  | JObj (props : list (string * JsValue)).

(** ToBoolean *)
Definition truthy (v : JsValue) : bool :=
  match v with
  | JUndefined | JNull => false
  | JBool b => b
  | JNum z => negb (z =? 0)
  | JStr s => negb (String.eqb s "")
  | JArr _ | JObj _ => true
  end.

(** a possibly absent string ([string | undefined]) used as a condition *)
Definition truthy_str (o : option string) : bool :=
  match o with
  | Some s => negb (String.eqb s "")
  | None => false
  end.

Fixpoint assoc (k : string) (props : list (string * JsValue)) : JsValue :=
  match props with
  | [] => JUndefined
  | (k', v) :: rest => if String.eqb k k' then v else assoc k rest
  end.

(** [v.k] for an own data property [k] of a value that is neither [null]
    nor [undefined]; the sources read only the keys [method], [id],
    [owner], [repo] and [status], none of which is inherited from a
    built-in prototype. *)
Definition get_prop (k : string) (v : JsValue) : JsValue :=
  match v with
  | JObj props => assoc k props
  | _ => JUndefined
  end.

(** [a || b] on values *)
Definition js_or (a b : JsValue) : JsValue := if truthy a then a else b.

(** strict equality with a string literal *)
Definition is_str (lit : string) (v : JsValue) : bool :=
  match v with
  | JStr s => String.eqb s lit
  | _ => false
  end.

(** The string ToString gives when it returns ([ToString] below tells
    when it throws).  The server sources apply it to the [message] and the
    [code] of a library's error object. *)
Fixpoint js_toString (v : JsValue) : string :=
  match v with
  | JUndefined => "undefined"
  | JNull => "null"
  | JBool true => "true"
  | JBool false => "false"
  | JNum z => pretty z
  | JStr s => s
  | JArr items =>
      join "," (map (fun x => match x with
                              | JUndefined | JNull => ""
                              | _ => js_toString x
                              end) items)
  | JObj _ => "[object Object]"
  end.

(** [Number.MAX_SAFE_INTEGER] *)
Definition MAX_SAFE_INTEGER : Z := 9007199254740991.

(** every number inside [v] is a safe integer *)
Fixpoint safe (v : JsValue) : bool :=
  match v with
  | JNum z => Z.abs z <=? MAX_SAFE_INTEGER
  | JArr items => forallb safe items
  | JObj props => forallb (fun kv => safe (snd kv)) props
  | _ => true
  end.

(** *** [JSON.stringify] *)

Definition hex_digit (n : N) : ascii :=
  match n with
  | 0 => "0" | 1 => "1" | 2 => "2" | 3 => "3" | 4 => "4" | 5 => "5"
  | 6 => "6" | 7 => "7" | 8 => "8" | 9 => "9" | 10 => "a" | 11 => "b"
  | 12 => "c" | 13 => "d" | 14 => "e" | _ => "f"
  end%N%char.

Definition hex_byte (b : N) : string :=
  String (hex_digit ((b / 16) mod 16)%N) (String (hex_digit (b mod 16)%N) "").

Definition json_escape_char (c : ascii) : string :=
  let n := code c in
  if (n =? 34)%N then "\" +:+ DQUOTE
  else if (n =? 92)%N then "\\"
  else if (n =? 8)%N then "\b"
  else if (n =? 9)%N then "\t"
  else if (n =? 10)%N then "\n"
  else if (n =? 12)%N then "\f"
  else if (n =? 13)%N then "\r"
  else if (n <? 32)%N then "\u00" +:+ hex_byte n
  else String c "".

Fixpoint json_escape (s : string) : string :=
  match s with
  | EmptyString => ""
  | String c s' => json_escape_char c +:+ json_escape s'
  end.

Definition json_quote (s : string) : string := DQUOTE +:+ json_escape s +:+ DQUOTE.

(** [None] stands for the result [undefined]. *)
Fixpoint JSON_stringify (v : JsValue) : option string :=
  match v with
  | JUndefined => None
  | JNull => Some "null"
  | JBool true => Some "true"
  | JBool false => Some "false"
  | JNum z => Some (pretty z)
  | JStr s => Some (json_quote s)
  | JArr items =>
      Some ("[" +:+ join "," (map (fun x => default "null" (JSON_stringify x)) items) +:+ "]")
  | JObj props =>
      let member (kv : string * JsValue) : list string :=
        match JSON_stringify (snd kv) with
        | Some s => [json_quote (fst kv) +:+ ":" +:+ s]
        | None => []
        end in
      Some ("{" +:+ join "," (concat (map member props)) +:+ "}")
  end.

(** A JSON object's [props] are its own properties in enumeration order,
    each key once. *)

(** ** Thrown values and settled promises

    What the sources throw or catch is an [Error] (or an error object of a
    library): its [message] and [code] are the two properties ever read. *)

Record Thrown : Type := {
  message : JsValue;
  code_of : JsValue;
  is_Error : bool          (* [e instanceof Error] *)
}.

(** [new Error(msg)], and likewise a [TypeError] raised by the engine *)
Definition Error (msg : string) : Thrown :=
  {| message := JStr msg; code_of := JUndefined; is_Error := true |}.

Inductive Settled (A : Type) : Type :=
  | Resolved (a : A)
  | Rejected (reason : Thrown).
Arguments Resolved {A} a.
Arguments Rejected {A} reason.

(** [try { c } catch (e) { h e }] *)
Definition try_catch {A} (c : Settled A) (h : Thrown -> Settled A) : Settled A :=
  match c with
  | Resolved a => Resolved a
  | Rejected e => h e
  end.

Definition and_then {A B} (c : Settled A) (k : A -> Settled B) : Settled B :=
  match c with
  | Resolved a => k a
  | Rejected e => Rejected e
  end.

Definition resolves {A} (c : Settled A) : bool :=
  match c with Resolved _ => true | Rejected _ => false end.

(** *** ToString, as a template literal applies it

    For an object this is OrdinaryToPrimitive with hint string: the
    object's [toString] is called if it is callable, then its [valueOf].
    A [JsValue] holds no function, so an own property [toString] is never
    callable and hides [Object.prototype.toString]; [valueOf], own or
    inherited, does not give a primitive either, and the conversion throws
    a TypeError (the message is V8's).  An array is joined with commas,
    converting each element that is neither [null] nor [undefined]. *)

Definition has_own (k : string) (props : list (string * JsValue)) : bool :=
  existsb (fun kv => String.eqb (fst kv) k) props.

Definition not_primitive : Thrown := Error "Cannot convert object to primitive value".

Fixpoint ToString (v : JsValue) : Settled string :=
  match v with
  | JUndefined => Resolved "undefined"
  | JNull => Resolved "null"
  | JBool true => Resolved "true"
  | JBool false => Resolved "false"
  | JNum z => Resolved (pretty z)
  | JStr s => Resolved s
  | JArr items =>
      let element (x : JsValue) : Settled string :=
        match x with
        | JUndefined | JNull => Resolved ""
        | _ => ToString x
        end in
      and_then
        ((fix elements (l : list JsValue) : Settled (list string) :=
            match l with
            | [] => Resolved []
            | x :: rest =>
                and_then (element x) (fun s =>
                and_then (elements rest) (fun ss => Resolved (s :: ss)))
            end) items)
        (fun ss => Resolved (join "," ss))
  | JObj props =>
      if has_own "toString" props then Rejected not_primitive
      else Resolved "[object Object]"
  end.

(** ** Random integers

    [Math.floor(Math.random() * n)] is all the sources ever do with
    [Math.random]; the stream of draws is an input and the [i]-th use
    yields [draws i mod n], an arbitrary integer of [0, n). *)

Record Entropy : Type := { draws : nat -> N; used : nat }.

Definition floor_random (n : N) (e : Entropy) : N * Entropy :=
  ((draws e (used e) mod n)%N, {| draws := draws e; used := S (used e) |}).

(** ** Tool results *)

Record TextContent : Type := { type : string; text : string }.
Record ToolResponse : Type := { content : list TextContent }.

Definition text_part (s : string) : TextContent := {| type := "text"; text := s |}.
Definition text_result (s : string) : ToolResponse := {| content := [text_part s] |}.

(** ** The server: [src/server/index.ts] *)

Module Server.

(** *** Session identifiers

    [crypto.randomUUID()]: sixteen random bytes, the version nibble forced
    to 4 and the variant bits to 10, printed as 8-4-4-4-12 lower-case hex
    digits.  The random bytes are the input [e], least significant first. *)

Definition byte_at (e : N) (i : N) : N := ((e / 256 ^ (i : N)) mod 256)%N.

Definition randomUUID (e : N) : string :=
  let b i := hex_byte (byte_at e i) in
  b 0%N +:+ b 1%N +:+ b 2%N +:+ b 3%N +:+ "-" +:+
  b 4%N +:+ b 5%N +:+ "-" +:+
  hex_byte (N.lor (N.land (byte_at e 6) 15) 64) +:+ b 7%N +:+ "-" +:+
  hex_byte (N.lor (N.land (byte_at e 8) 63) 128) +:+ b 9%N +:+ "-" +:+
  b 10%N +:+ b 11%N +:+ b 12%N +:+ b 13%N +:+ b 14%N +:+ b 15%N.

(** *** The [transports] object

    [const transports: TransportMap = {}] is an ordinary object literal:
    its own properties are the registered sessions, and a read
    [transports[k]] of a name that is not an own property falls through
    to [Object.prototype]. *)

Definition Object_prototype_keys : list string :=
  [ "constructor"; "hasOwnProperty"; "isPrototypeOf"; "propertyIsEnumerable";
    "toLocaleString"; "toString"; "valueOf"; "__proto__";
    "__defineGetter__"; "__defineSetter__"; "__lookupGetter__"; "__lookupSetter__" ].

(** A [StreamableHTTPServerTransport] object; transports live in a heap
    and are named by their index. *)
Record Transport : Type := { sessionId : option string }.

Record State : Type := {
  transports : gmap string nat;
  heap : list Transport
}.

Definition init : State := {| transports := ∅; heap := [] |}.

(** the result of reading [transports[k]] *)
Inductive Slot : Type :=
  | Live (t : nat)      (* an own property: a registered transport *)
  | Inherited           (* a member of [Object.prototype] *)
  | Absent.             (* [undefined] *)

Definition transports_get (tbl : gmap string nat) (k : string) : Slot :=
  match tbl !! k with
  | Some t => Live t
  | None => if bool_decide (k ∈ Object_prototype_keys) then Inherited else Absent
  end.

Definition slot_truthy (s : Slot) : bool :=
  match s with
  | Absent => false
  | Live _ | Inherited => true
  end.

Definition session_of (t : nat) (st : State) : option string :=
  heap st !! t ≫= sessionId.

(** *** Requests and responses *)

Inductive Method : Type := GET | POST | DELETE.

Record Request : Type := {
  method : Method;
  mcp_session_id : option string;     (* [req.headers['mcp-session-id']] *)
  body : JsValue                      (* [req.body] *)
}.

Inductive Payload : Type :=
  | Json (v : JsValue)                (* [res.json(v)] *)
  | Send (s : string).                (* [res.send(s)], or a body written by the transport *)

Record Response : Type := {
  status : Z;
  headers : list (string * string);
  payload : Payload
}.

Definition lower_ascii (c : ascii) : ascii :=
  let n := code c in
  if ((65 <=? n) && (n <=? 90))%N then ascii_of_N (n + 32) else c.

Fixpoint lower (s : string) : string :=
  match s with
  | EmptyString => ""
  | String c s' => String (lower_ascii c) (lower s')
  end.

(** header names are case-insensitive *)
Fixpoint find_header (name : string) (hs : list (string * string)) : option string :=
  match hs with
  | [] => None
  | (k, v) :: rest => if String.eqb (lower k) (lower name) then Some v else find_header name rest
  end.

Definition header (name : string) (r : Response) : option string :=
  find_header name (headers r).

Definition with_headers (hs : list (string * string)) (r : Response) : Response :=
  {| status := status r; headers := hs ++ headers r; payload := payload r |}.

(** *** The SDK transport

    [StreamableHTTPServerTransport] comes from [@modelcontextprotocol/sdk],
    which is a dependency and not part of the repository.  What one call of
    [transport.handleRequest] does is therefore an input, [SdkRun]: whether
    the call completes the initialization handshake (it then calls
    [sessionIdGenerator], stores the identifier in [transport.sessionId],
    fires [onsessioninitialized] and puts the identifier in the response's
    [mcp-session-id] header), closes the transport (firing [onclose]) or
    does neither, and whether it returns having written a response or
    throws. *)

Inductive Lifecycle : Type :=
  | Stay
  | Initialize (entropy : N)
  | Close.

Inductive Completion : Type :=
  | Returns (r : Response)
  | Throws (sent : option Response).   (* [sent]: the response, if headers were already sent *)

Record SdkRun : Type := { lifecycle : Lifecycle; completion : Completion }.

(** [onsessioninitialized: (sid) => { transports[sid] = transport; }] *)
Definition onsessioninitialized (t : nat) (sid : string) (st : State) : State :=
  {| transports := <[sid := t]> (transports st); heap := heap st |}.

(** [transport.onclose = () => { if (transport.sessionId) delete transports[transport.sessionId]; }] *)
Definition onclose (t : nat) (st : State) : State :=
  if truthy_str (session_of t st)
  then {| transports := delete (default "" (session_of t st)) (transports st); heap := heap st |}
  else st.

Definition set_sessionId (t : nat) (sid : string) (st : State) : State :=
  {| transports := transports st; heap := <[t := {| sessionId := Some sid |}]> (heap st) |}.

Definition map_completion (f : Response -> Response) (c : Completion) : Completion :=
  match c with
  | Returns r => Returns (f r)
  | Throws sent => Throws (f <$> sent)
  end.

Definition handleRequest (run : SdkRun) (t : nat) (st : State) : State * Completion :=
  match lifecycle run with
  | Stay => (st, completion run)
  | Initialize e =>
      let sid := randomUUID e in
      let st1 := set_sessionId t sid st in
      let st2 := if truthy_str (Some sid) then onsessioninitialized t sid st1 else st1 in
      (st2, map_completion (with_headers [("mcp-session-id", sid)]) (completion run))
  | Close => (onclose t st, completion run)
  end.

(** *** [app.post('/mcp', ...)] *)

(** [req.body?.id || null] *)
Definition request_id (b : JsValue) : JsValue :=
  js_or (match b with JUndefined | JNull => JUndefined | _ => get_prop "id" b end) JNull.

Definition error_envelope (c : Z) (message : string) (b : JsValue) : JsValue :=
  JObj [ ("jsonrpc", JStr "2.0");
         ("error", JObj [("code", JNum c); ("message", JStr message)]);
         ("id", request_id b) ].

Definition bad_request (b : JsValue) : Response :=
  {| status := 400; headers := [];
     payload := Json (error_envelope (-32000) "Bad Request: No valid session ID provided" b) |}.

Definition internal_error (pre : list (string * string)) (b : JsValue) : Response :=
  {| status := 500; headers := pre;
     payload := Json (error_envelope (-32603) "Internal server error" b) |}.

(** the [try { await transport.handleRequest(req, res, req.body) } catch ...]
    block; [pre] are the headers set on [res] before the call *)
Definition settle_post (pre : list (string * string)) (b : JsValue) (c : Completion) : Response :=
  match c with
  | Returns r => with_headers pre r
  | Throws (Some r) => with_headers pre r
  | Throws None => internal_error pre b
  end.

(** The outcome of a route: the new state, the response, and the transport
    whose [handleRequest] was called, if any. *)
Definition Outcome : Type := State * Response * option nat.

Definition app_post (run : SdkRun) (req : Request) (st : State) : Outcome :=
  let sid := mcp_session_id req in
  let slot := transports_get (transports st) (default "" sid) in
  if truthy_str sid && slot_truthy slot then
    (* transport = transports[sessionId] *)
    match slot with
    | Live t =>
        let '(st', c) := handleRequest run t st in
        (st', settle_post [] (body req) c, Some t)
    | _ =>
        (* an inherited member has no [handleRequest]: the call throws a TypeError *)
        (st, settle_post [] (body req) (Throws None), None)
    end
  else if negb (truthy_str sid) && truthy (body req)
          && is_str "initialize" (get_prop "method" (body req)) then
    (* transport = new StreamableHTTPServerTransport({...}) *)
    let t := length (heap st) in
    let st1 := {| transports := transports st; heap := heap st ++ [ {| sessionId := None |} ] |} in
    (* await server.connect(transport); if (transport.sessionId) res.setHeader(...) *)
    let pre :=
      if truthy_str (session_of t st1)
      then [ ("MCP-Session-ID", default "" (session_of t st1));
             ("Access-Control-Expose-Headers", "MCP-Session-ID") ]
      else [] in
    let '(st', c) := handleRequest run t st1 in
    (st', settle_post pre (body req) c, Some t)
  else
    (st, bad_request (body req), None).

(** *** [handleSessionRequest], serving GET and DELETE *)

Definition invalid_session : Response :=
  {| status := 400; headers := []; payload := Send "Invalid or missing session ID" |}.

Definition settle_session (c : Completion) : Response :=
  match c with
  | Returns r => r
  | Throws (Some r) => r
  | Throws None => {| status := 500; headers := []; payload := Send "Internal server error" |}
  end.

Definition handleSessionRequest (run : SdkRun) (req : Request) (st : State) : Outcome :=
  let sid := mcp_session_id req in
  let slot := transports_get (transports st) (default "" sid) in
  if negb (truthy_str sid) || negb (slot_truthy slot) then
    (st, invalid_session, None)
  else
    match slot with
    | Live t =>
        let '(st', c) := handleRequest run t st in
        (st', settle_session c, Some t)
    | _ => (st, settle_session (Throws None), None)
    end.

(** [app.post], [app.get], [app.delete] *)
Definition serve (run : SdkRun) (req : Request) (st : State) : Outcome :=
  match method req with
  | POST => app_post run req st
  | GET | DELETE => handleSessionRequest run req st
  end.

(** *** Runs of the server *)

Inductive Event : Type :=
  | Incoming (run : SdkRun) (req : Request)   (* a request, and what the SDK does with it *)
  | Closes (t : nat).                         (* transport [t] closes and fires [onclose] *)

Definition step (st : State) (ev : Event) : State :=
  match ev with
  | Incoming run req => (serve run req st).1.1
  | Closes t => onclose t st
  end.

Definition exec (evs : list Event) (st : State) : State := fold_left step evs st.

Inductive reachable : State -> Prop :=
  | reachable_init : reachable init
  | reachable_step st ev : reachable st -> reachable (step st ev).

(** the identifier a call of [handleRequest] generates, if any *)
Definition generated_by (run : SdkRun) : option string :=
  match lifecycle run with
  | Initialize e => Some (randomUUID e)
  | Stay | Close => None
  end.

Definition generated (ev : Event) : option string :=
  match ev with
  | Incoming run _ => generated_by run
  | Closes _ => None
  end.

(** a response that turns the request away without reaching a transport *)
Definition unbound_reply (req : Request) : Response :=
  match method req with
  | POST => bad_request (body req)
  | GET | DELETE => invalid_session
  end.

End Server.

(** ** The two regular expressions of the fallback planner

    A backtracking matcher for the fragment the sources use: literals
    (matched case-insensitively, the [i] flag), alternation, sequence, a
    greedy optional group, a greedy [+] over a character class, and one
    capturing group. *)

Module Regex.

Inductive CharClass : Type :=
  | Space            (* [\s] *)
  | NameChar.        (* [[a-zA-Z0-9_-]] *)

Inductive Re : Type :=
  | Lit (s : string)
  | Alt (a b : Re)
  | Cat (a b : Re)
  | Opt (a : Re)
  | Plus (c : CharClass)
  | Group (a : Re).

Definition bytes (l : list N) : string :=
  fold_right (fun n s => String (ascii_of_N n) s) "" l.

(** the UTF-8 encodings of the characters [\s] matches: TAB, LF, VT, FF,
    CR, SPACE, U+00A0, U+1680, U+2000 to U+200A, U+2028, U+2029, U+202F,
    U+205F, U+3000 and U+FEFF *)
Definition WhiteSpace : list string :=
  map bytes
    [ [9]; [10]; [11]; [12]; [13]; [32]; [194; 160]; [225; 154; 128];
      [226; 128; 128]; [226; 128; 129]; [226; 128; 130]; [226; 128; 131];
      [226; 128; 132]; [226; 128; 133]; [226; 128; 134]; [226; 128; 135];
      [226; 128; 136]; [226; 128; 137]; [226; 128; 138];
      [226; 128; 168]; [226; 128; 169]; [226; 128; 175]; [226; 129; 159];
      [227; 128; 128]; [239; 187; 191] ]%N.

Definition is_name_char (c : ascii) : bool :=
  let n := code c in
  (((97 <=? n) && (n <=? 122)) || ((65 <=? n) && (n <=? 90))
   || ((48 <=? n) && (n <=? 57)) || (n =? 95) || (n =? 45))%N.

Fixpoint first_prefix (ps : list string) (s : string) : option string :=
  match ps with
  | [] => None
  | p :: rest =>
      match strip_prefix p s with
      | Some s' => Some s'
      | None => first_prefix rest s
      end
  end.

(** one character of the class at the head of [s]; what follows it *)
Definition eat (c : CharClass) (s : string) : option string :=
  match c with
  | Space => first_prefix WhiteSpace s
  | NameChar =>
      match s with
      | String a s' => if is_name_char a then Some s' else None
      | EmptyString => None
      end
  end.

(** a literal under the [i] flag *)
Fixpoint strip_prefix_ci (p s : string) : option string :=
  match p, s with
  | EmptyString, _ => Some s
  | String a p', String b s' =>
      if Ascii.eqb (Server.lower_ascii a) (Server.lower_ascii b)
      then strip_prefix_ci p' s' else None
  | String _ _, EmptyString => None
  end.

(** greedy [c+] followed by the continuation [k]: the longest run first,
    then shorter ones; [n] bounds the length of the run *)
Fixpoint plus_fuel {R} (n : nat) (c : CharClass) (s : string) (k : string -> option R) : option R :=
  match n with
  | O => None
  | S n' =>
      match eat c s with
      | None => None
      | Some rest =>
          match plus_fuel n' c rest k with
          | Some r => Some r
          | None => k rest
          end
      end
  end.

(** the part of [s] in front of its suffix [s'] *)
Definition consumed (s s' : string) : string :=
  substring 0 (String.length s - String.length s') s.

Fixpoint run {R} (r : Re) (s : string) (cap : option string)
    (k : string -> option string -> option R) : option R :=
  match r with
  | Lit l =>
      match strip_prefix_ci l s with
      | Some rest => k rest cap
      | None => None
      end
  | Alt a b =>
      match run a s cap k with
      | Some x => Some x
      | None => run b s cap k
      end
  | Cat a b => run a s cap (fun s' cap' => run b s' cap' k)
  | Opt a =>
      match run a s cap k with
      | Some x => Some x
      | None => k s cap
      end
  | Plus c => plus_fuel (S (String.length s)) c s (fun s' => k s' cap)
  | Group a => run a s cap (fun s' _ => k s' (Some (consumed s s')))
  end.

(** [s.match(r)] for a regular expression without the [g] flag: the
    leftmost match; the result is the text of group 1 *)
Fixpoint search (r : Re) (s : string) : option (option string) :=
  match run r s None (fun _ cap => Some cap) with
  | Some cap => Some cap
  | None =>
      match s with
      | EmptyString => None
      | String _ s' => search r s'
      end
  end.

(** [m && m[1]] as a condition, giving [m[1]] *)
Definition group1 (m : option (option string)) : option string :=
  match m with
  | Some (Some g) => if String.eqb g "" then None else Some g
  | _ => None
  end.

End Regex.

(** ** Tool implementations: [src/server/mcp.tool.ts] and the handlers of
    [src/server/index.ts] *)

Module Tools.

(** [twitterClient.v2.tweet(status)] settles with [tweet.data.id] or
    rejects with the library's error object. *)
Definition TwitterApi : Type := string -> Settled string.

(** The first revision of [createPost]: the client always exists. *)
Module V1.

Definition createPost (twitterClient : TwitterApi) (status : string) : Settled ToolResponse :=
  try_catch
    (and_then (twitterClient status) (fun id =>
       Resolved (text_result ("Tweet sent successfully: " +:+ id))))
    (fun error =>
       Resolved (text_result ("Error sending tweet: " +:+ js_toString (message error)))).

End V1.

(** The second revision: the client is [null] without credentials, and a
    mock stands in for it. *)
Module V2.

Definition mock (status : string) (e : Entropy) : Settled ToolResponse * Entropy :=
  let '(hi, e1) := floor_random 1000000000 e in
  let '(lo, e2) := floor_random 1000000000 e1 in
  let mockTweetId := pretty hi +:+ pretty lo in
  let formattedContent :=
    "Tweet created successfully: Tweet sent successfully: " +:+ mockTweetId
    +:+ LF +:+ "Content: " +:+ DQUOTE +:+ status +:+ DQUOTE in
  (Resolved (text_result formattedContent), e2).

(** the inner [try]/[catch]: [Some] when it returns, [None] when control
    falls through to the mock *)
Definition via_api (tweet : TwitterApi) (status : string) : option ToolResponse :=
  match tweet status with
  | Resolved id =>
      Some (text_result ("Tweet sent successfully: " +:+ id +:+ LF
                         +:+ "Content: " +:+ DQUOTE +:+ status +:+ DQUOTE))
  | Rejected apiError =>
      if truthy (code_of apiError)
      then Some (text_result ("Error posting to Twitter: "
                              +:+ js_toString (js_or (message apiError) (JStr "Unknown error"))
                              +:+ " (Code: " +:+ js_toString (code_of apiError) +:+ ")"))
      else None
  end.

Definition createPost (twitterClient : option TwitterApi) (status : string) (e : Entropy)
    : Settled ToolResponse * Entropy :=
  let body :=
    match twitterClient ≫= (fun tweet => via_api tweet status) with
    | Some r => (Resolved r, e)
    | None => mock status e
    end in
  (try_catch body.1
     (fun error => Resolved (text_result ("Error creating tweet: " +:+ js_toString (message error)))),
   body.2).

End V2.

(** [createPost] as [index.ts] imports it: either revision *)
Definition CreatePost : Type := string -> Entropy -> Settled ToolResponse * Entropy.

Definition createPost_v1 (api : TwitterApi) : CreatePost :=
  fun status e => (V1.createPost api status, e).

Definition createPost_v2 (client : option TwitterApi) : CreatePost :=
  V2.createPost client.

(** [result.content[0]?.text || 'Tweet sent'] *)
Definition first_text_or (fallback : string) (r : ToolResponse) : string :=
  match content r with
  | part :: _ => if String.eqb (text part) "" then fallback else text part
  | [] => fallback
  end.

Definition tweet_label : string := "Tweet created successfully:".

(** the handler of the [twitter-X-post] tool *)
Definition twitter_X_post (createPost : CreatePost) (status : string) (e : Entropy)
    : Settled ToolResponse * Entropy :=
  let '(result, e') := createPost status e in
  (and_then result (fun result =>
     Resolved (text_result (ESC +:+ "[1;32m" +:+ tweet_label +:+ ESC +:+ "[0m "
                            +:+ first_text_or "Tweet sent" result +:+ LF))),
   e').

End Tools.

(** ** The client's MCP stub: [generateUUID] and [MCPClientImpl] *)

Module Client.

Record HttpRequest : Type := { url : string; verb : string; sent_body : string }.

(** What the browser side can observe or consume: random draws, the wall
    clock ([new Date().toLocaleTimeString()], one reading per use) and the
    HTTP requests issued so far. *)
Record World : Type := {
  entropy : Entropy;
  clock : nat -> string;
  ticks : nat;
  network : list HttpRequest
}.

Definition with_entropy (e : Entropy) (w : World) : World :=
  {| entropy := e; clock := clock w; ticks := ticks w; network := network w |}.

Definition toLocaleTimeString (w : World) : string * World :=
  (clock w (ticks w),
   {| entropy := entropy w; clock := clock w; ticks := S (ticks w); network := network w |}).

(** [Math.floor(Math.random() * n)] *)
Definition random_below (n : N) (w : World) : N * World :=
  let '(r, e) := floor_random n (entropy w) in (r, with_entropy e w).

(** ['xxxxxxxx-xxxx-4xxx-yxxx-xxxxxxxxxxxx'.replace(/[xy]/g, c => ...)] *)
Definition uuid_template : string := "xxxxxxxx-xxxx-4xxx-yxxx-xxxxxxxxxxxx".

Fixpoint fill_template (tpl : string) (w : World) : string * World :=
  match tpl with
  | EmptyString => ("", w)
  | String c rest =>
      if Ascii.eqb c "x" || Ascii.eqb c "y" then
        let '(r, w1) := random_below 16 w in
        let v := if Ascii.eqb c "x" then r else N.lor (N.land r 3) 8 in
        let '(s, w2) := fill_template rest w1 in
        (String (hex_digit v) s, w2)
      else
        let '(s, w1) := fill_template rest w in
        (String c s, w1)
  end.

Definition generateUUID (w : World) : string * World := fill_template uuid_template w.

Record Schema : Type := { schema_type : string; properties : JsValue; required : JsValue }.
Record Tool : Type := { name : string; description : string; inputSchema : Schema }.

Abbreviation MCPResponse := ToolResponse.

(** [interface MCPClient]; [C] is the state of the implementing object *)
Class MCPClient (C : Type) : Type := {
  connect : C -> World -> Settled unit * C * World;
  listTools : C -> World -> Settled (list Tool) * C * World;
  callTool : string -> JsValue -> C -> World -> Settled MCPResponse * C * World
}.

Module Impl.

Record MCPClientImpl : Type := {
  sessionId : string;
  connected : bool;
  baseUrl : string
}.

(** [constructor(baseUrl?)]; [env] is [process.env.NEXT_PUBLIC_MCP_SERVER_URL] *)
Definition new (baseUrl env : option string) : MCPClientImpl :=
  {| sessionId := "";
     connected := false;
     baseUrl := if truthy_str baseUrl then default "" baseUrl
                else if truthy_str env then default "" env
                else "http://localhost:3001/mcp" |}.

Definition connect (c : MCPClientImpl) (w : World) : Settled unit * MCPClientImpl * World :=
  let '(id, w') := generateUUID w in
  (Resolved tt, {| sessionId := id; connected := true; baseUrl := baseUrl c |}, w').

Definition string_prop (description : string) : JsValue :=
  JObj [("type", JStr "string"); ("description", JStr description)].

Definition known_tools : list Tool :=
  [ {| name := "github-repo-info";
       description := "Fetch information about a public GitHub repository";
       inputSchema :=
         {| schema_type := "object";
            properties := JObj [ ("owner", string_prop "GitHub username or organization");
                                 ("repo", string_prop "Repository name") ];
            required := JArr [JStr "owner"; JStr "repo"] |} |};
    {| name := "twitter-X-post";
       description := "Create and post a tweet on X formally known as Twitter";
       inputSchema :=
         {| schema_type := "object";
            properties := JObj [ ("status", string_prop "The content of the tweet") ];
            required := JArr [JStr "status"] |} |} ].

(** [if (!this.connected) await this.connect()] *)
Definition ensure_connected (c : MCPClientImpl) (w : World) : MCPClientImpl * World :=
  if connected c then (c, w) else let '(_, c', w') := connect c w in (c', w').

Definition listTools (c : MCPClientImpl) (w : World) : Settled (list Tool) * MCPClientImpl * World :=
  let '(c1, w1) := ensure_connected c w in
  (Resolved known_tools, c1, w1).

(** [const { k, ... } = v] throws a TypeError on [null] and [undefined]
    (the message is V8's) *)
Definition destructure (first_key : string) (v : JsValue) : Settled JsValue :=
  match v with
  | JUndefined =>
      Rejected (Error ("Cannot destructure property '" +:+ first_key
                       +:+ "' of 'params.arguments' as it is undefined."))
  | JNull =>
      Rejected (Error ("Cannot destructure property '" +:+ first_key
                       +:+ "' of 'params.arguments' as it is null."))
  | _ => Resolved v
  end.

Definition repo_text (owner repo : string) (stars forks issues : N) : string :=
  "📦 Repository Name: " +:+ owner +:+ "/" +:+ repo +:+ LF +:+ LF +:+
  "📝 Description: Repository for " +:+ repo +:+ LF +:+
  "⭐ Stars: " +:+ pretty stars +:+ LF +:+
  "🍴 Forks: " +:+ pretty forks +:+ LF +:+
  "🚩 Open Issues: " +:+ pretty issues +:+ LF +:+
  "🔗 Repository Link: https://github.com/" +:+ owner +:+ "/" +:+ repo.

Definition tweet_text (tweetId status : string) : string :=
  "Tweet created successfully: Tweet sent successfully: " +:+ tweetId +:+ LF +:+
  "Content: " +:+ DQUOTE +:+ status +:+ DQUOTE.

Definition echo_text (tool : string) (arguments : JsValue) : string :=
  "Called tool " +:+ tool +:+ " with arguments: "
  +:+ default "undefined" (JSON_stringify arguments).

(** The body of the [try] block of [callTool].  For [github-repo-info]
    the first template literal, [full_name], converts [owner] and [repo]
    before any random number is drawn; for [twitter-X-post] the two draws
    of [tweetId] come before [status] is converted. *)
Definition fabricate (tool : string) (arguments : JsValue) (w : World)
    : Settled MCPResponse * World :=
  if String.eqb tool "github-repo-info" then
    match destructure "owner" arguments with
    | Rejected err => (Rejected err, w)
    | Resolved args =>
        match ToString (get_prop "owner" args), ToString (get_prop "repo" args) with
        | Resolved owner, Resolved repo =>
            let '(stars, w1) := random_below 100 w in
            let '(forks, w2) := random_below 20 w1 in
            let '(issues, w3) := random_below 10 w2 in
            (Resolved (text_result (repo_text owner repo stars forks issues)), w3)
        | Rejected err, _ => (Rejected err, w)
        | Resolved _, Rejected err => (Rejected err, w)
        end
    end
  else if String.eqb tool "twitter-X-post" then
    match destructure "status" arguments with
    | Rejected err => (Rejected err, w)
    | Resolved args =>
        let '(hi, w1) := random_below 1000000000 w in
        let '(lo, w2) := random_below 1000000000 w1 in
        match ToString (get_prop "status" args) with
        | Resolved status =>
            (Resolved (text_result (tweet_text (pretty hi +:+ pretty lo) status)), w2)
        | Rejected err => (Rejected err, w2)
        end
    end
  else
    (Resolved (text_result (echo_text tool arguments)), w).

Definition callTool (tool : string) (arguments : JsValue) (c : MCPClientImpl) (w : World)
    : Settled MCPResponse * MCPClientImpl * World :=
  let '(c1, w1) := ensure_connected c w in
  let '(r, w2) := fabricate tool arguments w1 in
  (try_catch r (fun error => Rejected error), c1, w2).

End Impl.

#[export] Instance MCPClientImpl_client : MCPClient Impl.MCPClientImpl :=
  {| connect := Impl.connect; listTools := Impl.listTools; callTool := Impl.callTool |}.

End Client.

(** ** The planner: [GeminiService] *)

Module Gemini.

Import Client.

Inductive Role : Type := user | model.

Record ChatMessage : Type := { role : Role; parts : list TextContent }.

Record FunctionCall : Type := { fn : string; args : JsValue }.

Record GeminiResponse : Type := {
  functionCall : option FunctionCall;
  text_of : option string
}.

(** *** The model backend

    [this.ai.models.generateContent(...)] is the vendor SDK: its answer to
    a request is an input.  The response types keep the optional fields
    the code tests. *)

Record FunctionCallPart : Type := { fc_name : option string; fc_args : JsValue }.
Record Part : Type := { part_functionCall : option FunctionCallPart; part_text : option string }.
Record Content : Type := { content_parts : option (list Part) }.
Record Candidate : Type := { candidate_content : option Content }.
Record GenerateContentResponse : Type := { candidates : option (list Candidate) }.

Record FunctionDeclaration : Type := {
  decl_name : string;
  decl_description : string;
  parameters : Schema
}.

Record GenerateRequest : Type := {
  model_name : string;
  contents : list ChatMessage;
  config_tools : option (list FunctionDeclaration)
}.

Definition Backend : Type := GenerateRequest -> Settled GenerateContentResponse.

Record GeminiService : Type := {
  ai : Backend;
  chatHistory : list ChatMessage;
  apiKey : string
}.

(** [constructor(apiKey?)]; [env] is [process.env.NEXT_PUBLIC_GEMINI_API_KEY] *)
Definition new (backend : Backend) (key env : option string) : GeminiService :=
  {| ai := backend;
     chatHistory := [];
     apiKey := if truthy_str key then default "" key
               else if truthy_str env then default "" env else "" |}.

Definition push (m : ChatMessage) (g : GeminiService) : GeminiService :=
  {| ai := ai g; chatHistory := chatHistory g ++ [m]; apiKey := apiKey g |}.

Definition addUserMessage (msg : string) (g : GeminiService) : GeminiService :=
  push {| role := user; parts := [ {| type := "text"; text := msg |} ] |} g.

Definition addModelMessage (msg : string) (g : GeminiService) : GeminiService :=
  push {| role := model; parts := [ {| type := "text"; text := msg |} ] |} g.

Definition getChatHistory (g : GeminiService) : list ChatMessage := chatHistory g.

Definition clearChatHistory (g : GeminiService) : GeminiService :=
  {| ai := ai g; chatHistory := []; apiKey := apiKey g |}.

Definition is_user (m : ChatMessage) : bool :=
  match role m with user => true | model => false end.

(** *** The two patterns of the rule-based branch *)

Import Regex.

(** [/(?:owned by|from|by|of)\s+([a-zA-Z0-9_-]+)/i] *)
Definition owner_re : Re :=
  Cat (Alt (Lit "owned by") (Alt (Lit "from") (Alt (Lit "by") (Lit "of"))))
      (Cat (Plus Space) (Group (Plus NameChar))).

(** [/(?:owned by|from|by|of|about)\s+([a-zA-Z0-9_-]+)/i] *)
Definition owner_about_re : Re :=
  Cat (Alt (Lit "owned by") (Alt (Lit "from") (Alt (Lit "by") (Alt (Lit "of") (Lit "about")))))
      (Cat (Plus Space) (Group (Plus NameChar))).

(** [/(?:repo|repository)\s+(?:named|called)?\s+([a-zA-Z0-9_-]+)/i] *)
Definition repo_re : Re :=
  Cat (Alt (Lit "repo") (Lit "repository"))
      (Cat (Plus Space)
           (Cat (Opt (Alt (Lit "named") (Lit "called")))
                (Cat (Plus Space) (Group (Plus NameChar))))).

Section Planner.

(** [String.prototype.toLowerCase] follows the Unicode case tables; the
    planner is defined over any such function ([Server.lower] is the one
    for ASCII text). *)
Variable toLowerCase : string -> string.

(** [this.chatHistory.filter(msg => msg.role === 'user').pop()]
    [lastUserMessage?.parts[0]?.text?.toLowerCase() || ''] *)
Definition userQuery (history : list ChatMessage) : string :=
  match last (filter (fun m => is_user m) history) with
  | Some lastUserMessage =>
      match parts lastUserMessage with
      | p :: _ => let q := toLowerCase (text p) in if String.eqb q "" then "" else q
      | [] => ""
      end
  | None => ""
  end.

Definition declare (tool : Tool) : FunctionDeclaration :=
  {| decl_name := name tool;
     decl_description := description tool;
     parameters := inputSchema tool |}.

Definition request (g : GeminiService) (tools : list Tool) : GenerateRequest :=
  let functionDeclarations := map declare tools in
  {| model_name := "gemini-2.0-flash";
     contents := chatHistory g;
     config_tools := if (0 <? length functionDeclarations)%nat
                     then Some functionDeclarations else None |}.

(** the [return] of the inner [try] block, from [parts[0]] *)
Definition from_part (part : Part) : GeminiResponse :=
  {| functionCall :=
       match part_functionCall part with
       | Some fc =>
           if truthy_str (fc_name fc)
           then Some {| fn := default "" (fc_name fc);
                        args := js_or (fc_args fc) (JObj []) |}
           else None
       | None => None
       end;
     text_of := part_text part |}.

(** the inner [try] block, entered when [this.apiKey] is truthy *)
Definition primary (g : GeminiService) (tools : list Tool) : Settled GeminiResponse :=
  and_then (ai g (request g tools)) (fun response =>
    match candidates response with
    | None | Some [] => Rejected (Error "No response from Gemini")
    | Some (candidate :: _) =>
        match candidate_content candidate ≫= content_parts with
        | None | Some [] => Rejected (Error "Invalid response from Gemini")
        | Some (part :: _) => Resolved (from_part part)
        end
    end).

Definition call (tool : string) (arguments : list (string * JsValue)) : GeminiResponse :=
  {| functionCall := Some {| fn := tool; args := JObj arguments |}; text_of := None |}.

Definition help_text : string :=
  "I can help you get information about GitHub repositories or post tweets. Try asking something like 'Get info about Compilers repo owned by EcoLash' or 'Post a tweet about the repository'.".

(** the rule-based handling that follows the inner [try] *)
Definition rule_based (userQuery : string) : GeminiResponse :=
  if includes userQuery "repo" || includes userQuery "repository" || includes userQuery "github" then
    let owner := default "EcoLash" (group1 (search owner_re userQuery)) in
    let repo := default "Compilers" (group1 (search repo_re userQuery)) in
    call "github-repo-info" [("owner", JStr owner); ("repo", JStr repo)]
  else if includes userQuery "post" || includes userQuery "tweet"
          || includes userQuery "twitter" || includes userQuery "x" then
    if includes userQuery "repo" || includes userQuery "repository" then
      let owner := default "Subhadeeproy3902" (group1 (search owner_about_re userQuery)) in
      let repo := default "shadcnthemes" (group1 (search repo_re userQuery)) in
      call "twitter-X-post"
        [("status", JStr ("Check out " +:+ owner +:+ "/" +:+ repo
                          +:+ " on GitHub! It has 58 stars, 1 forks, and 9 open issues." +:+ LF
                          +:+ "https://github.com/" +:+ owner +:+ "/" +:+ repo))]
    else
      call "twitter-X-post"
        [("status", JStr "Just testing the GitTweet integration with Twitter/X! #testing #development")]
  else
    {| functionCall := None; text_of := Some help_text |}.

(** [if (this.apiKey) { try { ... return ... } catch (error) { } }]:
    [Some] when the block returns, [None] when control reaches the
    rule-based handling *)
Definition attempt (g : GeminiService) (tools : list Tool) : option GeminiResponse :=
  if negb (String.eqb (apiKey g) "") then
    match primary g tools with
    | Resolved r => Some r
    | Rejected _ => None
    end
  else None.

Definition generateContent (g : GeminiService) (tools : list Tool) : Settled GeminiResponse :=
  try_catch
    (let userQuery := userQuery (chatHistory g) in
     match attempt g tools with
     | Some r => Resolved r
     | None => Resolved (rule_based userQuery)
     end)
    (fun error => Rejected error).

End Planner.

(** which variants of a proposal are populated, as the chat container
    tests them *)
Definition has_call (r : GeminiResponse) : bool :=
  match functionCall r with Some _ => true | None => false end.

Definition has_text (r : GeminiResponse) : bool := truthy_str (text_of r).

End Gemini.

(** ** The chat container: [handleSendMessage] *)

Module Chat.

Import Client Gemini.

Record MessageProps : Type := {
  message_of : string;
  isUser : bool;
  timestamp : option string
}.

Section Container.

Variable toLowerCase : string -> string.
Context {C : Type} `{MCPClient C}.

(** The state the handler closes over or updates: the [messages] and
    [isLoading] React state, the [GeminiService] instance, and what
    [useMCP()] provides. *)
Record Container : Type := {
  messages : list MessageProps;
  isLoading : bool;
  gemini : GeminiService;
  client : option C;
  isConnected : bool;
  tools : list Tool;
  world : World
}.

Definition greeting (now : string) : MessageProps :=
  {| message_of := "Hello! How can I help you today?"; isUser := false; timestamp := Some now |}.

(** [setMessages((prev) => [...prev, m])], stamped with the current time *)
Definition say (text : string) (fromUser : bool) (ui : Container) : Container :=
  let '(now, w) := toLocaleTimeString (world ui) in
  {| messages := messages ui ++ [ {| message_of := text; isUser := fromUser; timestamp := Some now |} ];
     isLoading := isLoading ui; gemini := gemini ui; client := client ui;
     isConnected := isConnected ui; tools := tools ui; world := w |}.

Definition setIsLoading (b : bool) (ui : Container) : Container :=
  {| messages := messages ui; isLoading := b; gemini := gemini ui; client := client ui;
     isConnected := isConnected ui; tools := tools ui; world := world ui |}.

Definition with_gemini (g : GeminiService) (ui : Container) : Container :=
  {| messages := messages ui; isLoading := isLoading ui; gemini := g; client := client ui;
     isConnected := isConnected ui; tools := tools ui; world := world ui |}.

Definition with_client (c : C) (w : World) (ui : Container) : Container :=
  {| messages := messages ui; isLoading := isLoading ui; gemini := gemini ui; client := Some c;
     isConnected := isConnected ui; tools := tools ui; world := w |}.

(** the three outcomes of the [try] block once the planner has answered *)
Definition on_tool_call (fc : FunctionCall) (c : C) (ui : Container) : Settled unit * Container :=
  let '(response, c', w') := callTool (fn fc) (args fc) c (world ui) in
  let ui1 := with_client c' w' ui in
  match response with
  | Rejected err => (Rejected err, ui1)
  | Resolved response =>
      let responseText := join " " (map text (content response)) in
      let ui2 := with_gemini (addModelMessage responseText (gemini ui1)) ui1 in
      (Resolved tt, say responseText false ui2)
  end.

Definition on_text (answer : string) (ui : Container) : Settled unit * Container :=
  let ui1 := with_gemini (addModelMessage answer (gemini ui)) ui in
  (Resolved tt, say answer false ui1).

Definition on_nothing (ui : Container) : Settled unit * Container :=
  (Rejected (Error "No response from Gemini"), ui).

(** the body of the [try] block *)
Definition attempt_turn (message : string) (ui : Container) : Settled unit * Container :=
  match client ui with
  | Some c =>
      if isConnected ui then
        let ui1 := with_gemini (addUserMessage message (gemini ui)) ui in
        match generateContent toLowerCase (gemini ui1) (tools ui1) with
        | Rejected err => (Rejected err, ui1)
        | Resolved geminiResponse =>
            match functionCall geminiResponse with
            | Some fc => on_tool_call fc c ui1
            | None =>
                if truthy_str (text_of geminiResponse)
                then on_text (default "" (text_of geminiResponse)) ui1
                else on_nothing ui1
            end
        end
      else (Rejected (Error "MCP client not connected"), ui)
  | None => (Rejected (Error "MCP client not connected"), ui)
  end.

(** [`Error: ${err instanceof Error ? err.message : "Failed to get response"}`] *)
Definition error_text (err : Thrown) : string :=
  "Error: " +:+ (if is_Error err then js_toString (message err) else "Failed to get response").

Definition handleSendMessage (message : string) (ui : Container) : Container :=
  let ui1 := setIsLoading true (say message true ui) in
  let '(outcome, ui2) := attempt_turn message ui1 in
  let ui3 :=
    match outcome with
    | Resolved _ => ui2
    | Rejected err => say (error_text err) false ui2
    end in
  setIsLoading false ui3.

(** the conversation history the planner sees *)
Definition history (ui : Container) : list ChatMessage := chatHistory (gemini ui).

End Container.

End Chat.

(** * Vocabulary of the statements

    Predicates, classifications and sample inputs the theorems below are
    stated with. *)

Module RouterTerms.

Import Server.

(** identifiers of the shape [randomUUID] produces *)
Definition uuid (s : string) : Prop := ∃ e, s = randomUUID e.

(** Every key of the table and every identifier a transport holds was
    produced by [randomUUID]. *)
Definition wf (st : State) : Prop :=
  (∀ k t, transports st !! k = Some t → uuid k) ∧
  (∀ t sid, session_of t st = Some sid → uuid sid).

(** the random bytes an event hands to [randomUUID], if it generates an
    identifier *)
Definition drawn (ev : Event) : option N :=
  match ev with
  | Incoming run _ =>
      match lifecycle run with
      | Initialize e => Some e
      | Stay | Close => None
      end
  | Closes _ => None
  end.

(** The sixteen bytes of the random input as a version-4 identifier keeps
    them: the version nibble and the two variant bits are overwritten, the
    other 122 bits are printed. *)
Definition kept_bytes (e : N) : list N :=
  [ byte_at e 0; byte_at e 1; byte_at e 2; byte_at e 3; byte_at e 4; byte_at e 5;
    N.lor (N.land (byte_at e 6) 15) 64; byte_at e 7;
    N.lor (N.land (byte_at e 8) 63) 128; byte_at e 9;
    byte_at e 10; byte_at e 11; byte_at e 12; byte_at e 13; byte_at e 14; byte_at e 15 ]%N.

(** The random bytes [e] differ, in the bits an identifier keeps, from
    those of every identifier generated during [evs]. *)
Definition unused_draw (e : N) (evs : list Event) : Prop :=
  Forall (λ ev, ∀ e', drawn ev = Some e' → kept_bytes e' ≠ kept_bytes e) evs.

(** reading an identifier back: the value of a hexadecimal digit, and the
    bytes printed at the sixteen digit pairs of the 8-4-4-4-12 layout *)
Definition unhex (c : ascii) : N :=
  let n := code c in (if n <? 58 then n - 48 else n - 87)%N.

Definition pair_at (s : string) (i : nat) : N :=
  match String.get i s, String.get (S i) s with
  | Some a, Some b => (16 * unhex a + unhex b)%N
  | _, _ => 0%N
  end.

Definition uuid_bytes (s : string) : list N :=
  map (pair_at s) [0; 2; 4; 6; 9; 11; 14; 16; 19; 21; 24; 26; 28; 30; 32; 34]%nat.

(** the first [initialize] request of the examples *)
Definition hello : Event :=
  Incoming {| lifecycle := Initialize 7;
              completion := Returns {| status := 200; headers := []; payload := Send "" |} |}
           {| method := POST; mcp_session_id := None;
              body := JObj [("method", JStr "initialize")] |}.

(** the server after one accepted [initialize] request *)
Definition one_session : State :=
  step init (Incoming {| lifecycle := Initialize 7;
                         completion := Returns {| status := 200; headers := []; payload := Send "" |} |}
                      {| method := POST; mcp_session_id := None;
                         body := JObj [("method", JStr "initialize")] |}).

(** the server after a second one, with other random bytes *)
Definition two_sessions : State :=
  step one_session
       (Incoming {| lifecycle := Initialize 8;
                    completion := Returns {| status := 200; headers := []; payload := Send "" |} |}
                 {| method := POST; mcp_session_id := None;
                    body := JObj [("method", JStr "initialize")] |}).

End RouterTerms.

Module ToolTerms.

Import Tools.

(** the text the handler puts in front of whatever [createPost] reports *)
Definition success_banner : string := ESC +:+ "[1;32m" +:+ tweet_label.

End ToolTerms.

Module ClientTerms.

Import Client Client.Impl.

Definition needs_object (tool : string) : bool :=
  String.eqb tool "github-repo-info" || String.eqb tool "twitter-X-post".

Definition nullish (v : JsValue) : bool :=
  match v with
  | JUndefined | JNull => true
  | _ => false
  end.

(** values on which ToString throws: an object with an own [toString],
    or an array that holds such a value *)
Fixpoint poisoned (v : JsValue) : bool :=
  match v with
  | JObj props => has_own "toString" props
  | JArr items => existsb poisoned items
  | _ => false
  end.

(** the properties of the arguments that [callTool] puts into a template
    literal *)
Definition interpolated (tool : string) : list string :=
  if String.eqb tool "github-repo-info" then ["owner"; "repo"]
  else if String.eqb tool "twitter-X-post" then ["status"]
  else [].

Definition unconvertible (tool : string) (arguments : JsValue) : bool :=
  existsb (λ k, poisoned (get_prop k arguments)) (interpolated tool).

(** what [fabricate] returns for a tool and arguments it accepts *)
Definition fabricated (tool : string) (arguments : JsValue) (t : string) : Prop :=
  if String.eqb tool "github-repo-info" then
    ∃ stars forks issues, (stars < 100 ∧ forks < 20 ∧ issues < 10)%N
      ∧ t = repo_text (js_toString (get_prop "owner" arguments))
                      (js_toString (get_prop "repo" arguments)) stars forks issues
  else if String.eqb tool "twitter-X-post" then
    ∃ hi lo, (hi < 1000000000 ∧ lo < 1000000000)%N
      ∧ t = tweet_text (pretty hi +:+ pretty lo) (js_toString (get_prop "status" arguments))
  else t = echo_text tool arguments.

End ClientTerms.

Module PlannerTerms.

Import Client Gemini.

(** The first part of the first candidate, when the key is set and the
    backend answers with one: the response the inner [try] block returns
    from. *)
Definition usable_part (g : GeminiService) (tools : list Tool) : option Part :=
  if String.eqb (apiKey g) "" then None
  else
    match ai g (request g tools) with
    | Resolved response =>
        match candidates response with
        | Some (candidate :: _) =>
            match candidate_content candidate ≫= content_parts with
            | Some (part :: _) => Some part
            | _ => None
            end
        | _ => None
        end
    | Rejected _ => None
    end.

(** the ways the primary path fails *)
Inductive primary_failure (g : GeminiService) (tools : list Tool) : Prop :=
  | missing_key :
      apiKey g = "" → primary_failure g tools
  | backend_threw err :
      ai g (request g tools) = Rejected err → primary_failure g tools
  | no_candidates response :
      ai g (request g tools) = Resolved response →
      candidates response = None ∨ candidates response = Some [] →
      primary_failure g tools
  | invalid_content response candidate others :
      ai g (request g tools) = Resolved response →
      candidates response = Some (candidate :: others) →
      candidate_content candidate ≫= content_parts = None
      ∨ candidate_content candidate ≫= content_parts = Some [] →
      primary_failure g tools.

(** a function call the planner keeps: it has a name *)
Definition named_call (part : Part) : bool :=
  match part_functionCall part with
  | Some fc => truthy_str (fc_name fc)
  | None => false
  end.

(** a backend whose first part carries both a named function call and a
    text *)
Definition chatty_backend : Backend := λ _,
  Resolved {| candidates := Some [ {| candidate_content := Some {| content_parts := Some
    [ {| part_functionCall :=
           Some {| fc_name := Some "adder"; fc_args := JObj [("a", JNum 2); ("b", JNum 3)] |};
         part_text := Some "Let me add those." |} ] |} |} ] |}.

(** a backend that proposes [adder({a: 2, b: 3})] *)
Definition adder_part : Part :=
  {| part_functionCall :=
       Some {| fc_name := Some "adder"; fc_args := JObj [("a", JNum 2); ("b", JNum 3)] |};
     part_text := None |}.

Definition adder_response : GenerateContentResponse :=
  {| candidates := Some [ {| candidate_content := Some {| content_parts := Some [adder_part] |} |} ] |}.

Definition stub_backend : Backend := λ _, Resolved adder_response.

(** a backend whose part carries neither a function call nor a text *)
Definition mute_backend : Backend := λ _,
  Resolved {| candidates := Some [ {| candidate_content := Some {| content_parts := Some
    [ {| part_functionCall := None; part_text := None |} ] |} |} ] |}.

End PlannerTerms.

Module ChatTerms.

Import Client Gemini Chat PlannerTerms.

Definition user_turn (msg : string) : ChatMessage :=
  {| role := user; parts := [text_part msg] |}.

Definition model_turn (msg : string) : ChatMessage :=
  {| role := model; parts := [text_part msg] |}.

(** the reply of the bundled client to [adder({a: 2, b: 3})] *)
Definition adder_echo : string :=
  "Called tool adder with arguments: {" +:+ DQUOTE +:+ "a" +:+ DQUOTE +:+ ":2,"
  +:+ DQUOTE +:+ "b" +:+ DQUOTE +:+ ":3}".

(** the text of the message shown last *)
Definition last_message {C : Type} (ui : Container (C := C)) : option string :=
  message_of <$> last (messages ui).

Definition quiet_world : World :=
  {| entropy := {| draws := λ _, 0%N; used := 0 |}; clock := λ n, pretty n; ticks := 0;
     network := [] |}.

Definition session (backend : Backend) : Container (C := Impl.MCPClientImpl) :=
  {| messages := []; isLoading := false;
     gemini := Gemini.new backend (Some "key") None;
     client := Some (Impl.new None None); isConnected := true;
     tools := Impl.known_tools; world := quiet_world |}.

End ChatTerms.

(** * Further vocabulary *)

Module NameTerms.

Import Regex.

(** strings of the class [[a-zA-Z0-9_-]+] *)
Fixpoint all_name_chars (s : string) : bool :=
  match s with
  | EmptyString => true
  | String c r => is_name_char c && all_name_chars r
  end.

Definition is_name (s : string) : bool := negb (String.eqb s "") && all_name_chars s.

(** a capture that is either unset or a name *)
Definition name_or_unset (cap : option string) : Prop :=
  match cap with
  | None => True
  | Some g => is_name g = true
  end.

(** patterns whose only groups are [([a-zA-Z0-9_-]+)] *)
Inductive names_only : Re → Prop :=
  | names_lit l : names_only (Lit l)
  | names_alt a b : names_only a → names_only b → names_only (Alt a b)
  | names_cat a b : names_only a → names_only b → names_only (Cat a b)
  | names_opt a : names_only a → names_only (Opt a)
  | names_plus c : names_only (Plus c)
  | names_group : names_only (Group (Plus NameChar)).

End NameTerms.

Module PlannerMoreTerms.

Import Client Gemini.

(** the tweet every query of the tweet rule gets *)
Definition generic_tweet : GeminiResponse :=
  {| functionCall :=
       Some {| fn := "twitter-X-post";
               args := JObj [("status", JStr "Just testing the GitTweet integration with Twitter/X! #testing #development")] |};
     text_of := None |}.

(** a proposal to look a repository up *)
Definition repository_lookup (owner repo : string) : GeminiResponse :=
  {| functionCall :=
       Some {| fn := "github-repo-info";
               args := JObj [("owner", JStr owner); ("repo", JStr repo)] |};
     text_of := None |}.

Definition help_answer : GeminiResponse :=
  {| functionCall := None;
     text_of := Some "I can help you get information about GitHub repositories or post tweets. Try asking something like 'Get info about Compilers repo owned by EcoLash' or 'Post a tweet about the repository'." |}.

End PlannerMoreTerms.

Module ChatMoreTerms.

Import Client Gemini Chat PlannerTerms ChatTerms.

(** a client whose server is unreachable: every call rejects *)
#[export] Instance unreachable_client : MCPClient unit :=
  {| connect := λ c w, (Rejected (Error "Failed to fetch"), c, w);
     listTools := λ c w, (Rejected (Error "Failed to fetch"), c, w);
     callTool := λ _ _ c w, (Rejected (Error "Failed to fetch"), c, w) |}.

(** the text the loop shows and records for a tool response *)
Definition response_text (response : ToolResponse) : string :=
  join " " (map text (content response)).

(** sample states of the chat container *)
Definition ready_client : Impl.MCPClientImpl :=
  {| Impl.sessionId := "00000000-0000-4000-8000-000000000000"; Impl.connected := true;
     Impl.baseUrl := "http://localhost:3001/mcp" |}.

Definition chatty_session : Container (C := Impl.MCPClientImpl) :=
  {| messages := []; isLoading := false;
     gemini := Gemini.new chatty_backend (Some "key") None;
     client := Some ready_client; isConnected := true;
     tools := Impl.known_tools; world := quiet_world |}.

(** a backend whose proposal has an [owner] that cannot be converted to
    a string *)
Definition poisoned_call : FunctionCall :=
  {| fn := "github-repo-info";
     args := JObj [("owner", JObj [("toString", JNum 1)]); ("repo", JStr "x")] |}.

Definition poisoned_backend : Backend := λ _,
  Resolved {| candidates := Some [ {| candidate_content := Some {| content_parts := Some
    [ {| part_functionCall := Some {| fc_name := Some (fn poisoned_call);
                                      fc_args := args poisoned_call |};
         part_text := None |} ] |} |} ] |}.

Definition poisoned_session : Container (C := Impl.MCPClientImpl) :=
  {| messages := []; isLoading := false;
     gemini := Gemini.new poisoned_backend (Some "key") None;
     client := Some ready_client; isConnected := true;
     tools := Impl.known_tools; world := quiet_world |}.

Definition stranded_session : Container (C := unit) :=
  {| messages := []; isLoading := false;
     gemini := Gemini.new stub_backend (Some "key") None;
     client := Some tt; isConnected := true;
     tools := []; world := quiet_world |}.

End ChatMoreTerms.

(** ** The MCP provider: [mcp-context.tsx] *)

Module Provider.

Import Client.

(** the state [MCPProvider] hands to its consumers through [useMCP()] *)
Record Provided : Type := {
  client : option Impl.MCPClientImpl;
  tools : list Tool;
  isConnected : bool;
  isLoading : bool;
  error : option string
}.

(** the initial [useState] values *)
Definition initial : Provided :=
  {| client := None; tools := []; isConnected := false; isLoading := true; error := None |}.

(** [err instanceof Error ? err.message : fallback] *)
Definition describe (fallback : string) (err : Thrown) : string :=
  if is_Error err then js_toString (message err) else fallback.

(** the [try] block shared by [initMCP] and [reconnect]: a fresh client is
    connected, published, and asked for its tools; [env] is
    [process.env.NEXT_PUBLIC_MCP_SERVER_URL] *)
Definition establish (env : option string) (st : Provided) (w : World)
    : Settled unit * Provided * World :=
  let st0 := {| client := client st; tools := tools st; isConnected := isConnected st;
                isLoading := true; error := None |} in
  let mcpClient := Impl.new None env in
  let '(connected, c1, w1) := connect mcpClient w in
  match connected with
  | Rejected err => (Rejected err, st0, w1)
  | Resolved _ =>
      let st1 := {| client := Some c1; tools := tools st0; isConnected := true;
                    isLoading := isLoading st0; error := error st0 |} in
      let '(toolsResult, c2, w2) := listTools c1 w1 in
      (* the client object is shared: its later state is the published one *)
      let st2 := {| client := Some c2; tools := tools st1; isConnected := isConnected st1;
                    isLoading := isLoading st1; error := error st1 |} in
      match toolsResult with
      | Rejected err => (Rejected err, st2, w2)
      | Resolved found =>
          (Resolved tt,
           {| client := client st2; tools := found; isConnected := isConnected st2;
              isLoading := isLoading st2; error := error st2 |}, w2)
      end
  end.

Definition finally_loaded (st : Provided) : Provided :=
  {| client := client st; tools := tools st; isConnected := isConnected st;
     isLoading := false; error := error st |}.

(** [initMCP], run once when the provider mounts *)
Definition initMCP (env : option string) (st : Provided) (w : World) : Provided * World :=
  let '(outcome, st1, w1) := establish env st w in
  let st2 :=
    match outcome with
    | Resolved _ => st1
    | Rejected err =>
        {| client := None; tools := []; isConnected := false; isLoading := isLoading st1;
           error := Some (describe "Failed to connect to MCP server" err) |}
    end in
  (finally_loaded st2, w1).

(** [reconnect] *)
Definition reconnect (env : option string) (st : Provided) (w : World) : Provided * World :=
  let '(outcome, st1, w1) := establish env st w in
  let st2 :=
    match outcome with
    | Resolved _ => st1
    | Rejected err =>
        {| client := client st1; tools := tools st1; isConnected := isConnected st1;
           isLoading := isLoading st1;
           error := Some (describe "Failed to reconnect to MCP server" err) |}
    end in
  (finally_loaded st2, w1).

End Provider.

Module ClientMoreTerms.

Import Client.

(** a text that instantiates the template of [generateUUID]: a hex digit
    for each [x], one of 8, 9, a, b for each [y], the template's own
    character elsewhere *)
Definition is_hex (c : ascii) : bool :=
  let n := code c in
  (((48 <=? n) && (n <=? 57)) || ((97 <=? n) && (n <=? 102)))%N.

Definition is_variant (c : ascii) : bool :=
  let n := code c in
  ((n =? 56) || (n =? 57) || (n =? 97) || (n =? 98))%N.

Fixpoint instantiates (tpl s : string) : bool :=
  match tpl, s with
  | EmptyString, EmptyString => true
  | String c tpl', String d s' =>
      (if Ascii.eqb c "x" then is_hex d
       else if Ascii.eqb c "y" then is_variant d
       else Ascii.eqb c d)
      && instantiates tpl' s'
  | _, _ => false
  end.

(** the number of [x] and [y] in a template *)
Fixpoint placeholders (tpl : string) : nat :=
  match tpl with
  | EmptyString => 0
  | String c tpl' =>
      (if Ascii.eqb c "x" || Ascii.eqb c "y" then 1 else 0) + placeholders tpl'
  end.

End ClientMoreTerms.

(** ** The fetching tool handlers of [src/server/index.ts]

    [fetch], the JSON and XML decoding of a response and the remote
    services are inputs: a handler is given what its one request yields.
    Response bodies have the shape of the interfaces the source declares
    for them ([GitHubRepoResponse], [WikipediaResponse], [NewsItem]). *)

Module Handlers.

Definition of_bytes (l : list N) : string :=
  fold_right (λ n s, String (ascii_of_N n) s) "" l.

(** *** [encodeURIComponent], on the UTF-8 bytes of a well-formed string *)

Definition is_unreserved (c : ascii) : bool :=
  let n := code c in
  (((65 <=? n) && (n <=? 90)) || ((97 <=? n) && (n <=? 122)) || ((48 <=? n) && (n <=? 57))
   || (n =? 45) || (n =? 95) || (n =? 46) || (n =? 33) || (n =? 126) || (n =? 42)
   || (n =? 39) || (n =? 40) || (n =? 41))%N.

Definition HEX_digit (n : N) : ascii :=
  match n with
  | 0 => "0" | 1 => "1" | 2 => "2" | 3 => "3" | 4 => "4" | 5 => "5"
  | 6 => "6" | 7 => "7" | 8 => "8" | 9 => "9" | 10 => "A" | 11 => "B"
  | 12 => "C" | 13 => "D" | 14 => "E" | _ => "F"
  end%N%char.

Definition percent (c : ascii) : string :=
  String "%" (String (HEX_digit (code c / 16)) (String (HEX_digit (code c mod 16)) "")).

Fixpoint encodeURIComponent (s : string) : string :=
  match s with
  | EmptyString => ""
  | String c r =>
      if is_unreserved c then String c (encodeURIComponent r)
      else percent c +:+ encodeURIComponent r
  end.

(** *** What a request yields

    The body is taken at the type the source casts it to
    ([as GitHubRepoResponse], [as WikipediaResponse]); a body of another
    shape is not modelled. *)

Record Reply (A : Type) : Type := {
  ok : bool;
  http_status : Z;
  statusText : string;
  json : Settled A              (* [await response.json()] *)
}.
Arguments ok {A} _.
Arguments http_status {A} _.
Arguments statusText {A} _.
Arguments json {A} _.

(** [fetch(url)] *)
Definition Fetch (A : Type) : Type := string → Settled (Reply A).

(** *** [github-repo-info] *)

Record GitHubRepoResponse : Type := {
  full_name : string;
  description : option string;       (* [string | null] *)
  stargazers_count : Z;
  forks_count : Z;
  open_issues_count : Z;
  html_url : string
}.

Definition icon_package : string := of_bytes [195; 176; 197; 184; 226; 128; 156; 194; 166]%N.
Definition icon_memo : string := of_bytes [195; 176; 197; 184; 226; 128; 156]%N.
Definition icon_star : string := of_bytes [195; 162; 194; 173]%N.
Definition icon_fork : string := of_bytes [195; 176; 197; 184; 194; 180]%N.
Definition icon_flag : string := of_bytes [195; 176; 197; 184; 197; 161; 194; 169]%N.
Definition icon_link : string := of_bytes [195; 176; 197; 184; 226; 128; 157; 226; 128; 148]%N.

Definition github_url (owner repo : string) : string :=
  "https://api.github.com/repos/" +:+ owner +:+ "/" +:+ repo.

Definition github_card (data : GitHubRepoResponse) : string :=
  ESC +:+ "[1;32m" +:+ icon_package +:+ " Repository Name:" +:+ ESC +:+ "[0m "
    +:+ ESC +:+ "[1;33m" +:+ full_name data +:+ ESC +:+ "[0m" +:+ LF +:+ LF +:+
  ESC +:+ "[1;32m" +:+ icon_memo +:+ " Description:" +:+ ESC +:+ "[0m "
    +:+ (if truthy_str (description data) then default "" (description data)
         else "No description") +:+ LF +:+
  ESC +:+ "[1;32m" +:+ icon_star +:+ " Stars:" +:+ ESC +:+ "[0m "
    +:+ pretty (stargazers_count data) +:+ LF +:+
  ESC +:+ "[1;32m" +:+ icon_fork +:+ " Forks:" +:+ ESC +:+ "[0m "
    +:+ pretty (forks_count data) +:+ LF +:+
  ESC +:+ "[1;32m" +:+ icon_flag +:+ " Open Issues:" +:+ ESC +:+ "[0m "
    +:+ pretty (open_issues_count data) +:+ LF +:+
  ESC +:+ "[1;32m" +:+ icon_link +:+ " Repository Link:" +:+ ESC +:+ "[0m "
    +:+ ESC +:+ "[4;34m" +:+ html_url data +:+ ESC +:+ "[0m".

Definition github_repo_info (fetch : Fetch GitHubRepoResponse) (owner repo : string)
    : Settled ToolResponse :=
  let url := github_url owner repo in
  try_catch
    (and_then (fetch url) (λ response,
       if negb (ok response) then
         Rejected (Error ("GitHub API error: " +:+ pretty (http_status response)
                          +:+ " " +:+ statusText response))
       else
         and_then (json response) (λ data, Resolved (text_result (github_card data)))))
    (λ err,
       Resolved (text_result ("Failed to fetch repository info for "
                              +:+ owner +:+ "/" +:+ repo))).

(** *** [wikipedia-search] *)

Record Desktop : Type := { page : string }.
Record ContentUrls : Type := { desktop : Desktop }.
Record WikipediaResponse : Type := {
  title : string;
  extract : string;
  content_urls : ContentUrls
}.

Definition wikipedia_url (query : string) : string :=
  "https://en.wikipedia.org/api/rest_v1/page/summary/" +:+ encodeURIComponent query.

Definition wikipedia_search (fetch : Fetch WikipediaResponse) (query : string)
    : Settled ToolResponse :=
  let url := wikipedia_url query in
  try_catch
    (and_then (fetch url) (λ response,
       if negb (ok response) then
         Resolved (text_result (ESC +:+ "[1;31mError:" +:+ ESC +:+ "[0m " +:+ ESC
                                +:+ "[31mFailed to fetch Wikipedia summary for " +:+ DQUOTE
                                +:+ query +:+ DQUOTE +:+ "." +:+ ESC +:+ "[0m" +:+ LF))
       else
         and_then (json response) (λ data,
           Resolved (text_result (ESC +:+ "[1;32m" +:+ title data +:+ ESC +:+ "[0m" +:+ LF +:+ LF
                                  +:+ ESC +:+ "[37m" +:+ extract data +:+ ESC +:+ "[0m"
                                  +:+ LF +:+ LF +:+ "[Read more on Wikipedia]" +:+ ESC
                                  +:+ "[4;34m(" +:+ page (desktop (content_urls data)) +:+ ")"
                                  +:+ ESC +:+ "[0m" +:+ LF)))))
    (λ err, Resolved (text_result "An error occurred while trying to fetch Wikipedia data.")).

(** *** [news-by-topic] *)

(** An item of the parsed feed.  [xml2js] gives an element's children as
    an array under the element's name, and no property at all when the
    element is missing: [None] stands for [undefined]. *)
Record NewsItem : Type := {
  item_title : option (list string);
  item_link : option (list string)
}.

(** What [fetch(rssUrl)], [response.text()], [parseStringPromise(xml)] and
    the path [parsed.rss.channel[0].item] yield together: a rejection when
    one of them throws, [None] when the channel has no [item]. *)
Definition Feed : Type := string → Settled (option (list NewsItem)).

Definition news_url (topic : string) : string :=
  "https://news.google.com/rss/search?q=" +:+ encodeURIComponent topic.

(** [a[0]] as a template literal prints it: reading an index of
    [undefined] throws a TypeError (the message is V8's), and an empty
    array gives [undefined] *)
Definition first_printed (a : option (list string)) : Settled string :=
  match a with
  | None => Rejected (Error "Cannot read properties of undefined (reading '0')")
  | Some [] => Resolved "undefined"
  | Some (x :: _) => Resolved x
  end.

Definition BACKSLASH : string := String "092"%char "".

(** the line of one item, from its printed title and link *)
Definition headline_text (index : nat) (title link : string) : string :=
  let hyperlink := ESC +:+ "]8;;" +:+ link +:+ ESC +:+ BACKSLASH +:+ " Link "
                   +:+ ESC +:+ "]8;;" +:+ ESC +:+ BACKSLASH in
  ESC +:+ "[1;33m[" +:+ pretty (index + 1)%nat +:+ "]" +:+ ESC +:+ "[0m " +:+ title +:+ " "
  +:+ ESC +:+ "[1;32;1m " +:+ hyperlink +:+ " " +:+ ESC +:+ "[0m".

(** the callback of [items.map] *)
Definition headline (index : nat) (item : NewsItem) : Settled string :=
  and_then (first_printed (item_title item)) (λ title,
  and_then (first_printed (item_link item)) (λ link,
  Resolved (headline_text index title link))).

(** [items.map((item, index) => ...)], from [index] on: the first callback
    that throws ends the map *)
Fixpoint headlines (index : nat) (items : list NewsItem) : Settled (list string) :=
  match items with
  | [] => Resolved []
  | item :: rest =>
      and_then (headline index item) (λ line,
      and_then (headlines (S index) rest) (λ lines, Resolved (line :: lines)))
  end.

Definition no_news (topic : string) : string :=
  of_bytes [195; 162; 197; 146]%N +:+ " No recent news found for topic: " +:+ DQUOTE
  +:+ topic +:+ DQUOTE +:+ ".".

Definition news_failed : string :=
  of_bytes [195; 162; 197; 161; 194; 160; 195; 175; 194; 184]%N
  +:+ " Failed to retrieve news. Please try again later.".

Definition news_by_topic (feed : Feed) (topic : string) : Settled ToolResponse :=
  let rssUrl := news_url topic in
  try_catch
    (and_then (feed rssUrl) (λ item,
       (* item?.slice(0, 5) || [] *)
       let items := match item with Some l => take 5 l | None => [] end in
       if (length items =? 0)%nat then Resolved (text_result (no_news topic))
       else
         and_then (headlines 0 items) (λ lines,
           let formattedNews := join LF lines in
           Resolved (text_result ("Top News for " +:+ DQUOTE +:+ topic +:+ DQUOTE +:+ ":"
                                  +:+ LF +:+ LF +:+ formattedNews)))))
    (λ err, Resolved (text_result news_failed)).

End Handlers.

Module HandlerTerms.

Import Handlers.

(** characters [encodeURIComponent] can produce *)
Definition is_encoded_char (c : ascii) : bool := is_unreserved c || Ascii.eqb c "%".

Fixpoint all_chars (p : ascii → bool) (s : string) : bool :=
  match s with
  | EmptyString => true
  | String c r => p c && all_chars p r
  end.

(** the payload of a request that went through: [None] when [fetch]
    rejects, the status is not ok, or the body does not decode *)
Definition decoded {A} (fetch : Fetch A) (url : string) : option A :=
  match fetch url with
  | Resolved response =>
      if ok response then
        match json response with
        | Resolved data => Some data
        | Rejected _ => None
        end
      else None
  | Rejected _ => None
  end.

(** an item that has both a title and a link element *)
Definition complete (item : NewsItem) : bool :=
  match item_title item, item_link item with
  | Some _, Some _ => true
  | _, _ => false
  end.

(** the first string of an element, [undefined] when it has none *)
Definition printed (a : option (list string)) : string :=
  match a with
  | Some (x :: _) => x
  | _ => "undefined"
  end.

(** the lines of a list of complete items, numbered from [index] + 1 *)
Fixpoint listing (index : nat) (items : list NewsItem) : list string :=
  match items with
  | [] => []
  | item :: rest =>
      headline_text index (printed (item_title item)) (printed (item_link item))
      :: listing (S index) rest
  end.

End HandlerTerms.

(** * Properties of the request router *)

Module RouterProps.

Import Server RouterTerms.


Lemma randomUUID_length (e : N) : String.length (randomUUID e) = 36%nat.
Proof. reflexivity. Qed.

Lemma randomUUID_not_inherited (e : N) : randomUUID e ∉ Object_prototype_keys.
Proof.
  intros Hin. pose proof (randomUUID_length e) as Hlen.
  unfold Object_prototype_keys in Hin.
  repeat (apply elem_of_cons in Hin as [Heq | Hin];
          [rewrite Heq in Hlen; vm_compute in Hlen; discriminate |]).
  by apply elem_of_nil in Hin.
Qed.

Lemma randomUUID_truthy (e : N) : truthy_str (Some (randomUUID e)) = true.
Proof. reflexivity. Qed.


Lemma uuid_truthy (s : string) : uuid s → truthy_str (Some s) = true.
Proof. intros [e ->]. apply randomUUID_truthy. Qed.

Lemma uuid_not_inherited (s : string) : uuid s → s ∉ Object_prototype_keys.
Proof. intros [e ->]. apply randomUUID_not_inherited. Qed.

Lemma wf_init : wf init.
Proof.
  split.
  - intros k t Hk. simpl in Hk. by rewrite lookup_empty in Hk.
  - intros t sid Hs. by destruct t.
Qed.

Lemma onclose_wf (t : nat) (st : State) : wf st → wf (onclose t st).
Proof.
  intros [Hk Hs]. unfold onclose.
  destruct (truthy_str (session_of t st)); [|by split].
  split; [|exact Hs].
  intros k t' Hl. simpl in Hl.
  apply lookup_delete_Some in Hl as [_ Hl]. eauto.
Qed.

Lemma session_of_set (t t' : nat) (sid s : string) (st : State) :
  session_of t' (set_sessionId t sid st) = Some s →
  s = sid ∨ session_of t' st = Some s.
Proof.
  unfold session_of, set_sessionId. simpl.
  destruct (<[t:={| sessionId := Some sid |}]> (heap st) !! t') as [tr|] eqn:Hl;
    [|discriminate].
  apply list_lookup_insert_Some in Hl as [(-> & <- & _) | (_ & Hl)].
  - simpl. intros [= <-]. by left.
  - rewrite Hl. by right.
Qed.

Lemma handleRequest_wf (run : SdkRun) (t : nat) (st : State) :
  wf st → wf (handleRequest run t st).1.
Proof.
  intros Hwf. unfold handleRequest.
  destruct (lifecycle run) as [|e|]; simpl.
  - done.
  - destruct Hwf as [Hk Hs]. split.
    + intros k t' Hl. simpl in Hl.
      apply lookup_insert_Some in Hl as [[<- _] | [_ Hl]]; [by exists e | eauto].
    + intros t' s Hl.
      change (session_of t' (set_sessionId t (randomUUID e) st) = Some s) in Hl.
      apply session_of_set in Hl as [-> | Hl]; [by exists e | eauto].
  - by apply onclose_wf.
Qed.

Lemma spawn_wf (st : State) :
  wf st → wf {| transports := transports st; heap := (heap st ++ [ {| sessionId := None |} ])%list |}.
Proof.
  intros [Hk Hs]. split; [exact Hk|].
  intros t sid Hl. unfold session_of in Hl. simpl in Hl.
  destruct ((heap st ++ [ {| sessionId := None |} ])%list !! t) as [tr|] eqn:Ht; [|discriminate].
  apply lookup_snoc_Some in Ht as [[_ Ht] | [_ <-]]; [|discriminate].
  apply (Hs t). unfold session_of. by rewrite Ht.
Qed.

Lemma serve_wf (run : SdkRun) (req : Request) (st : State) :
  wf st → wf (serve run req st).1.1.
Proof.
  intros Hwf. unfold serve, app_post, handleSessionRequest.
  destruct (method req);
    repeat match goal with
    | |- context [if ?b then _ else _] => destruct b
    | |- context [match transports_get ?m ?k with _ => _ end] => destruct (transports_get m k)
    | |- context [let '(_, _) := handleRequest ?r ?t ?s in _] =>
        pose proof (handleRequest_wf r t s) as Hh; destruct (handleRequest r t s); simpl in *
    end; simpl; auto using spawn_wf.
Qed.

Lemma step_wf (st : State) (ev : Event) : wf st → wf (step st ev).
Proof. destruct ev; simpl; auto using serve_wf, onclose_wf. Qed.

Lemma reachable_wf (st : State) : reachable st → wf st.
Proof. induction 1; auto using wf_init, step_wf. Qed.


Lemma get_absent (tbl : gmap string nat) (k : string) :
  tbl !! k = None → k ∉ Object_prototype_keys → transports_get tbl k = Absent.
Proof.
  intros Hk Hp. unfold transports_get. rewrite Hk.
  by rewrite bool_decide_eq_false_2.
Qed.

Lemma get_live (tbl : gmap string nat) (k : string) (t : nat) :
  tbl !! k = Some t → transports_get tbl k = Live t.
Proof. intros Hk. unfold transports_get. by rewrite Hk. Qed.

(** A request bearing a registered identifier is handed to the registered
    transport, whatever its method and payload. *)
Lemma bound_request_routed (run : SdkRun) (req : Request) (st : State) (sid : string) (t : nat) :
  mcp_session_id req = Some sid → truthy_str (Some sid) = true →
  transports st !! sid = Some t →
  (serve run req st).2 = Some t.
Proof.
  intros Hsid Htr Hl. unfold serve, app_post, handleSessionRequest.
  rewrite Hsid. simpl default. rewrite (get_live _ _ _ Hl), Htr. simpl.
  destruct (method req); by destruct (handleRequest run t st).
Qed.

(** A request bearing an identifier that is neither registered nor a
    member of [Object.prototype] is turned away and changes nothing. *)
Lemma unbound_request_rejected (run : SdkRun) (req : Request) (st : State) (sid : string) :
  mcp_session_id req = Some sid → truthy_str (Some sid) = true →
  transports st !! sid = None → sid ∉ Object_prototype_keys →
  serve run req st = (st, unbound_reply req, None).
Proof.
  intros Hsid Htr Hl Hp. unfold serve, app_post, handleSessionRequest, unbound_reply.
  rewrite Hsid. simpl default. rewrite (get_absent _ _ Hl Hp), Htr. simpl.
  by destruct (method req).
Qed.

(** A POST without an identifier that is not an [initialize] request is
    turned away with code -32000 and changes nothing. *)
Lemma anonymous_non_initialize_rejected (run : SdkRun) (req : Request) (st : State) :
  truthy_str (mcp_session_id req) = false →
  truthy (body req) && is_str "initialize" (get_prop "method" (body req)) = false →
  app_post run req st = (st, bad_request (body req), None).
Proof.
  intros Hsid Hb. unfold app_post. rewrite Hsid. simpl.
  by destruct (truthy (body req)), (is_str "initialize" (get_prop "method" (body req))).
Qed.

Lemma onclose_keeps_absent (t : nat) (st : State) (k : string) :
  transports st !! k = None → transports (onclose t st) !! k = None.
Proof.
  intros Hk. unfold onclose. destruct (truthy_str _); [|done].
  simpl. apply lookup_delete_None. by right.
Qed.

Lemma handleRequest_keeps_absent (run : SdkRun) (t : nat) (st : State) (k : string) :
  transports st !! k = None → generated_by run ≠ Some k →
  transports (handleRequest run t st).1 !! k = None.
Proof.
  intros Hk Hg. destruct run as [lc c]. unfold handleRequest, generated_by in *. simpl in *.
  destruct lc as [|e|]; simpl; [done| |by apply onclose_keeps_absent].
  apply lookup_insert_None. split; [done|]. intros Heq. apply Hg. by rewrite Heq.
Qed.

Lemma step_keeps_absent (st : State) (ev : Event) (k : string) :
  transports st !! k = None → generated ev ≠ Some k →
  transports (step st ev) !! k = None.
Proof.
  intros Hk Hg.
  destruct ev as [run req | t]; [|by apply onclose_keeps_absent]. simpl in *.
  unfold serve, app_post, handleSessionRequest.
  destruct (method req);
    repeat match goal with
    | |- context [if ?b then _ else _] => destruct b
    | |- context [match transports_get ?m ?x with _ => _ end] => destruct (transports_get m x)
    end; simpl; try done.
  all: match goal with
       | |- context [handleRequest ?r ?t ?s] =>
           pose proof (handleRequest_keeps_absent r t s k) as Hx;
           destruct (handleRequest r t s) eqn:E; simpl in *
       end.
  all: by apply Hx.
Qed.

Lemma exec_keeps_absent (evs : list Event) (st : State) (k : string) :
  transports st !! k = None → Forall (λ ev, generated ev ≠ Some k) evs →
  transports (exec evs st) !! k = None.
Proof.
  revert st. induction evs as [|ev evs IH]; intros st Hk Hall; [done|].
  inversion Hall; subst. simpl. apply IH; [|done]. by apply step_keeps_absent.
Qed.

Lemma exec_wf (evs : list Event) (st : State) : wf st → wf (exec evs st).
Proof.
  revert st. induction evs as [|ev evs IH]; intros st Hwf; [done|].
  simpl. apply IH. by apply step_wf.
Qed.

(** *** Identifiers are as different as the random bytes they come from *)

Lemma unhex_hex_digit (n : N) : (n < 16)%N → unhex (hex_digit n) = n.
Proof.
  intros Hn. destruct n as [|p]; [reflexivity|].
  do 4 (destruct p as [p|p|]; try reflexivity); lia.
Qed.

Lemma read_hex_byte (b : N) :
  (b < 256)%N →
  (16 * unhex (hex_digit ((b / 16) mod 16)) + unhex (hex_digit (b mod 16)))%N = b.
Proof.
  intros Hb.
  assert (Hq : (b / 16 < 16)%N) by (apply N.Div0.div_lt_upper_bound; lia).
  rewrite (N.mod_small _ _ Hq).
  rewrite !unhex_hex_digit by (done || (apply N.mod_lt; lia)).
  symmetry. apply N.div_mod'.
Qed.

Lemma byte_at_lt (e i : N) : (byte_at e i < 256)%N.
Proof. unfold byte_at. apply N.mod_lt. lia. Qed.

Lemma version_byte_lt (b : N) : (N.lor (N.land b 15) 64 < 256)%N.
Proof.
  change 15%N with (N.ones 4). rewrite N.land_ones.
  assert (Hx : (b mod 2 ^ 4 < 16)%N) by (apply N.mod_lt; by vm_compute).
  destruct (b mod 2 ^ 4)%N as [|p]; [by vm_compute|].
  do 4 (destruct p as [p|p|]; try by vm_compute); lia.
Qed.

Lemma variant_byte_lt (b : N) : (N.lor (N.land b 63) 128 < 256)%N.
Proof.
  change 63%N with (N.ones 6). rewrite N.land_ones.
  assert (Hx : (b mod 2 ^ 6 < 64)%N) by (apply N.mod_lt; by vm_compute).
  destruct (b mod 2 ^ 6)%N as [|p]; [by vm_compute|].
  do 6 (destruct p as [p|p|]; try by vm_compute); lia.
Qed.

(** an identifier can be read back: it prints the kept bytes, all of them *)
Lemma uuid_bytes_randomUUID (e : N) : uuid_bytes (randomUUID e) = kept_bytes e.
Proof.
  cbv [uuid_bytes pair_at map String.get randomUUID hex_byte String.append kept_bytes].
  rewrite !read_hex_byte by auto using byte_at_lt, version_byte_lt, variant_byte_lt.
  reflexivity.
Qed.

Lemma randomUUID_inj (e e' : N) : randomUUID e = randomUUID e' → kept_bytes e = kept_bytes e'.
Proof. intros Heq. by rewrite <- !uuid_bytes_randomUUID, Heq. Qed.

Lemma generated_drawn (ev : Event) : generated ev = randomUUID <$> drawn ev.
Proof. destruct ev as [[lc c] req | t]; [by destruct lc | done]. Qed.

(** an identifier made from unused random bytes is not in the table *)
Lemma unused_draw_fresh (e : N) (evs : list Event) :
  unused_draw e evs → transports (exec evs init) !! randomUUID e = None.
Proof.
  intros Hevs. apply exec_keeps_absent; [apply lookup_empty|].
  eapply Forall_impl; [exact Hevs|]. intros ev Hev. simpl in Hev.
  rewrite generated_drawn. destruct (drawn ev) as [e'|] eqn:Hd; [|done].
  cbn [fmap option_fmap option_map]. intros Heq%(inj Some).
  apply (Hev e' eq_refl). by apply randomUUID_inj.
Qed.

(** C1: a POST without a session identifier whose payload is an
    [initialize] request makes the router create a new transport; when the
    SDK completes the handshake, the identifier [randomUUID] prints from
    the random bytes is not a key of the table -- the router does not look
    it up: this holds because the bytes differ, in the bits an identifier
    keeps, from those of every identifier generated before -- the
    transport is registered under it, the other entries stay, the response
    carries it in the [mcp-session-id] header, and every later request
    bearing it is handed to that same transport. *)
Theorem initialize_binds_fresh_session
    (evs : list Event) (run : SdkRun) (req : Request) (e : N) (r : Response) :
  truthy_str (mcp_session_id req) = false →
  truthy (body req) && is_str "initialize" (get_prop "method" (body req)) = true →
  lifecycle run = Initialize e → completion run = Returns r →
  unused_draw e evs →
  let st := exec evs init in
  let t := length (heap st) in
  let sid := randomUUID e in
  ∃ st' res,
    app_post run req st = (st', res, Some t)
    ∧ transports st !! sid = None
    ∧ heap st !! t = None
    ∧ session_of t st' = Some sid
    ∧ transports st' = <[sid := t]> (transports st)
    ∧ (∀ k t', transports st !! k = Some t' → transports st' !! k = Some t')
    ∧ header "Mcp-Session-Id" res = Some sid
    ∧ ∀ run' req', mcp_session_id req' = Some sid → (serve run' req' st').2 = Some t.
Proof.
  intros Hsid Hinit Hlc Hc Hdraw st t sid.
  pose proof (unused_draw_fresh e evs Hdraw) as Hfresh. fold st sid in Hfresh.
  destruct run as [lc c]. simpl in Hlc, Hc. subst lc c.
  unfold app_post. rewrite Hsid. simpl andb. cbv iota.
  apply andb_prop in Hinit as [Hb Hm]. rewrite Hb, Hm. simpl negb. simpl andb. cbv iota.
  assert (Hnew : session_of t {| transports := transports st;
                     heap := (heap st ++ [ {| sessionId := None |} ])%list |} = None).
  { unfold session_of. simpl. subst t. by rewrite lookup_app_r, Nat.sub_diag. }
  fold t. rewrite Hnew. simpl truthy_str. cbv iota.
  unfold handleRequest. simpl lifecycle. cbv iota. fold sid.
  eexists _, _. split; [reflexivity|].
  assert (Hsess : session_of t (onsessioninitialized t sid
            (set_sessionId t sid {| transports := transports st;
               heap := (heap st ++ [ {| sessionId := None |} ])%list |})) = Some sid).
  { unfold session_of, onsessioninitialized, set_sessionId. simpl.
    rewrite list_lookup_insert_eq; [done|]. rewrite length_app. simpl. subst t. lia. }
  split; [exact Hfresh|].
  split; [by apply lookup_ge_None_2|].
  split; [exact Hsess|].
  split; [reflexivity|].
  split.
  { intros k t' Hk. simpl. rewrite lookup_insert_ne; [done|]. intros <-. congruence. }
  split; [reflexivity|].
  intros run' req' Hreq'.
  apply (bound_request_routed run' req' _ sid t); [done|apply randomUUID_truthy|].
  simpl. apply lookup_insert_eq.
Qed.

Lemma initialize_binds_fresh_session_witness :
  ∃ st' res,
    app_post {| lifecycle := Initialize 8;
                completion := Returns {| status := 200; headers := []; payload := Send "" |} |}
             {| method := POST; mcp_session_id := None;
                body := JObj [("method", JStr "initialize")] |} (exec [hello] init)
    = (st', res, Some 1%nat)
    ∧ transports (exec [hello] init) !! randomUUID 8 = None
    ∧ heap (exec [hello] init) !! 1%nat = None
    ∧ session_of 1 st' = Some (randomUUID 8)
    ∧ transports st' = <[randomUUID 8 := 1%nat]> (transports (exec [hello] init))
    ∧ (∀ k t', transports (exec [hello] init) !! k = Some t' → transports st' !! k = Some t')
    ∧ header "Mcp-Session-Id" res = Some (randomUUID 8)
    ∧ ∀ run' req', mcp_session_id req' = Some (randomUUID 8) → (serve run' req' st').2 = Some 1%nat.
Proof.
  apply (initialize_binds_fresh_session [hello]
           {| lifecycle := Initialize 8;
              completion := Returns {| status := 200; headers := []; payload := Send "" |} |}
           {| method := POST; mcp_session_id := None;
              body := JObj [("method", JStr "initialize")] |} 8
           {| status := 200; headers := []; payload := Send "" |}); try reflexivity.
  repeat constructor. intros e' [= <-]. vm_compute. discriminate.
Defined.

(** C2: once a session's transport has signalled closure its entry is
    gone from the table, and it stays gone through any further events in
    which the identifier is not generated anew; a request bearing the old
    identifier is then turned away with status 400, reaches no transport
    and changes nothing. *)
Theorem closed_session_stays_unbound
    (st : State) (t : nat) (sid : string) (evs : list Event) (run : SdkRun) (req : Request) :
  reachable st →
  session_of t st = Some sid →
  Forall (λ ev, generated ev ≠ Some sid) evs →
  mcp_session_id req = Some sid →
  let closed := onclose t st in
  let later := exec evs closed in
  transports closed !! sid = None
  ∧ transports later !! sid = None
  ∧ serve run req later = (later, unbound_reply req, None).
Proof.
  intros Hreach Hsess Hevs Hreq closed later.
  destruct (reachable_wf st Hreach) as [_ Hs].
  pose proof (Hs t sid Hsess) as Huuid.
  assert (Hgone : transports closed !! sid = None).
  { subst closed. unfold onclose. rewrite Hsess, (uuid_truthy sid Huuid).
    simpl. apply lookup_delete_eq. }
  assert (Hlater : transports later !! sid = None)
    by (by apply exec_keeps_absent).
  repeat split; [done | done |].
  apply unbound_request_rejected with (sid := sid);
    auto using uuid_truthy, uuid_not_inherited.
Qed.

Lemma closed_session_stays_unbound_witness :
  transports (onclose 0 one_session) !! randomUUID 7 = None
  ∧ transports (exec [Closes 0] (onclose 0 one_session)) !! randomUUID 7 = None
  ∧ serve {| lifecycle := Stay; completion := Throws None |}
          {| method := DELETE; mcp_session_id := Some (randomUUID 7); body := JUndefined |}
          (exec [Closes 0] (onclose 0 one_session))
    = (exec [Closes 0] (onclose 0 one_session), invalid_session, None).
Proof.
  apply (closed_session_stays_unbound one_session 0 (randomUUID 7) [Closes 0]
           {| lifecycle := Stay; completion := Throws None |}
           {| method := DELETE; mcp_session_id := Some (randomUUID 7); body := JUndefined |}).
  - apply reachable_step, reachable_init.
  - reflexivity.
  - repeat constructor. discriminate.
  - reflexivity.
Defined.

(** C3, the failing input: the identifier [constructor] matches no entry
    of the table, yet [transports[sessionId]] is truthy for it (it reads
    [Object.prototype.constructor]), so the rejection branch is skipped,
    the call of [handleRequest] on that value throws, and the answer is
    status 500 with code -32603 instead of 400 with code -32000.  No
    session is created and the state is unchanged. *)
Theorem inherited_name_passes_session_check (run : SdkRun) (b : JsValue) :
  app_post run {| method := POST; mcp_session_id := Some "constructor"; body := b |} init
  = (init, internal_error [] b, None)
  ∧ status (internal_error [] b) = 500
  ∧ get_prop "code" (get_prop "error" (error_envelope (-32603) "Internal server error" b))
    = JNum (-32603)
  ∧ transports init !! "constructor" = None.
Proof. repeat split. Qed.

End RouterProps.

(** * Properties of the tweet tool *)

Module ToolProps.

Import Tools ToolTerms.

Lemma strip_prefix_app (p s : string) : strip_prefix p (p +:+ s) = Some s.
Proof.
  induction p as [|a p IH]; [done|].
  change (strip_prefix (String a p) (String a (p +:+ s)) = Some s).
  simpl. by rewrite Ascii.eqb_refl.
Qed.

Lemma startsWith_app (p s : string) : startsWith (p +:+ s) p = true.
Proof. unfold startsWith. by rewrite strip_prefix_app. Qed.

Lemma app_assoc_str (a b c : string) : (a +:+ b) +:+ c = a +:+ (b +:+ c).
Proof.
  induction a as [|x a IH]; [done|].
  change (String x ((a +:+ b) +:+ c) = String x (a +:+ (b +:+ c))). by rewrite IH.
Qed.

Lemma V1_createPost_resolves (api : TwitterApi) (status : string) :
  ∃ r, V1.createPost api status = Resolved r.
Proof. unfold V1.createPost. destruct (api status); simpl; eauto. Qed.

Lemma V2_createPost_resolves (client : option TwitterApi) (status : string) (e : Entropy) :
  ∃ r, (V2.createPost client status e).1 = Resolved r.
Proof.
  unfold V2.createPost.
  destruct (client ≫= λ tweet, V2.via_api tweet status) as [r|]; simpl; eauto.
Qed.

Lemma handler_banner (createPost : CreatePost) (status : string) (e : Entropy) (r : ToolResponse) :
  (createPost status e).1 = Resolved r →
  ∃ t, (twitter_X_post createPost status e).1 = Resolved (text_result t)
       ∧ startsWith t success_banner = true.
Proof.
  intros Hr. unfold twitter_X_post.
  destruct (createPost status e) as [res e']. simpl in Hr. subst res. simpl.
  eexists. split; [reflexivity|].
  unfold success_banner.
  rewrite <- (app_assoc_str "[1;32m" tweet_label), <- (app_assoc_str ESC).
  apply startsWith_app.
Qed.

(** C9, counterexample: without a Twitter client the handler's text opens
    with the escape character of the colour code, not with the letter T. *)
Lemma tweet_text_opens_with_escape :
  ∃ t, (twitter_X_post (createPost_v2 None) "hi" {| draws := λ _, 0%N; used := 0 |}).1
       = Resolved (text_result t)
       ∧ startsWith t "Tweet created successfully:" = false
       ∧ startsWith t ESC = true.
Proof. eexists. repeat split. Qed.

(** C9, as amended: [createPost] resolves in both revisions, and whatever
    it reports the handler resolves with a text that begins with the ANSI
    colour code ESC[1;32m followed by the words Tweet created successfully
    and a colon.  In the first revision a failed API call makes the
    reported text an error message; in the second, without a client, it is
    the mock success carrying a random tweet id. *)
Theorem tweet_handler_always_reports_success
    (api : TwitterApi) (client : option TwitterApi) (status : string) (e : Entropy) :
  resolves (V1.createPost api status) = true
  ∧ resolves (V2.createPost client status e).1 = true
  ∧ (∃ t, (twitter_X_post (createPost_v1 api) status e).1 = Resolved (text_result t)
          ∧ startsWith t success_banner = true)
  ∧ (∃ t, (twitter_X_post (createPost_v2 client) status e).1 = Resolved (text_result t)
          ∧ startsWith t success_banner = true)
  ∧ (∀ err, api status = Rejected err →
       V1.createPost api status
       = Resolved (text_result ("Error sending tweet: " +:+ js_toString (message err))))
  ∧ (∃ hi lo, (hi < 1000000000)%N ∧ (lo < 1000000000)%N
       ∧ (V2.createPost None status e).1
         = Resolved (text_result ("Tweet created successfully: Tweet sent successfully: "
                                  +:+ (pretty hi +:+ pretty lo) +:+ LF
                                  +:+ "Content: " +:+ DQUOTE +:+ status +:+ DQUOTE))).
Proof.
  destruct (V1_createPost_resolves api status) as [r1 H1].
  destruct (V2_createPost_resolves client status e) as [r2 H2].
  split; [by rewrite H1|]. split; [by rewrite H2|].
  split; [by apply (handler_banner (createPost_v1 api) status e r1)|].
  split; [by apply (handler_banner (createPost_v2 client) status e r2)|].
  split.
  - intros err Herr. unfold V1.createPost. by rewrite Herr.
  - unfold V2.createPost, V2.mock, floor_random. simpl.
    eexists _, _. split; [|split; [|reflexivity]]; by apply N.mod_lt.
Qed.

End ToolProps.

Module ToolNotes.

Import Tools.

(** second revision: an API error that carries a code is reported as an
    error message *)
Lemma V2_api_error_with_code (tweet : TwitterApi) (status : string) (e : Entropy) (err : Thrown) :
  tweet status = Rejected err → truthy (code_of err) = true →
  V2.createPost (Some tweet) status e
  = (Resolved (text_result ("Error posting to Twitter: "
                            +:+ js_toString (js_or (message err) (JStr "Unknown error"))
                            +:+ " (Code: " +:+ js_toString (code_of err) +:+ ")")), e).
Proof.
  intros Herr Hcode. unfold V2.createPost, V2.via_api. simpl. by rewrite Herr, Hcode.
Qed.

(** second revision: an API error without a code falls through to the mock *)
Lemma V2_api_error_without_code (tweet : TwitterApi) (status : string) (e : Entropy) (err : Thrown) :
  tweet status = Rejected err → truthy (code_of err) = false →
  V2.createPost (Some tweet) status e = V2.createPost None status e.
Proof.
  intros Herr Hcode. unfold V2.createPost, V2.via_api. simpl. by rewrite Herr, Hcode.
Qed.

End ToolNotes.

(** * Properties of the client's MCP stub *)

Module ClientProps.

Import Client Client.Impl ClientTerms.

Lemma random_below_network (n : N) (w : World) : network (random_below n w).2 = network w.
Proof. reflexivity. Qed.

Lemma random_below_lt (n : N) (w : World) : n ≠ 0%N → ((random_below n w).1 < n)%N.
Proof. intros Hn. unfold random_below, floor_random. simpl. by apply N.mod_lt. Qed.

Lemma fill_template_network (tpl : string) (w : World) :
  network (fill_template tpl w).2 = network w.
Proof.
  revert w. induction tpl as [|c tpl IH]; intros w; [done|]. simpl.
  destruct (Ascii.eqb c "x" || Ascii.eqb c "y").
  - specialize (IH (with_entropy (floor_random 16 (entropy w)).2 w)).
    unfold random_below. simpl in *.
    destruct (fill_template tpl _) as [s w2]. simpl in *. exact IH.
  - specialize (IH w). destruct (fill_template tpl w) as [s w1]. exact IH.
Qed.

Lemma generateUUID_length (w : World) : String.length (generateUUID w).1 = 36%nat.
Proof. reflexivity. Qed.

Lemma generateUUID_network (w : World) : network (generateUUID w).2 = network w.
Proof. unfold generateUUID. apply fill_template_network. Qed.

Lemma connect_spec (c : MCPClientImpl) (w : World) :
  connect c w
  = (Resolved tt,
     {| sessionId := (generateUUID w).1; connected := true; baseUrl := baseUrl c |},
     (generateUUID w).2).
Proof. unfold connect. by destruct (generateUUID w). Qed.

Lemma ensure_connected_spec (c : MCPClientImpl) (w : World) :
  connected (ensure_connected c w).1 = true
  ∧ network (ensure_connected c w).2 = network w.
Proof.
  unfold ensure_connected. destruct (connected c) eqn:Hc.
  - split; [exact Hc | reflexivity].
  - pose proof (generateUUID_network w) as Hnet. unfold connect.
    destruct (generateUUID w) as [id w']. split; [reflexivity | exact Hnet].
Qed.

(** *** When ToString throws *)

Section JsValue_induction.

Variable P : JsValue → Prop.
Hypothesis Hundefined : P JUndefined.
Hypothesis Hnull : P JNull.
Hypothesis Hbool : ∀ b, P (JBool b).
Hypothesis Hnum : ∀ z, P (JNum z).
Hypothesis Hstr : ∀ s, P (JStr s).
Hypothesis Harr : ∀ items, Forall P items → P (JArr items).
Hypothesis Hobj : ∀ props, P (JObj props).

(** induction on a value, through the elements of its arrays *)
Fixpoint JsValue_elements_ind (v : JsValue) : P v :=
  match v with
  | JUndefined => Hundefined
  | JNull => Hnull
  | JBool b => Hbool b
  | JNum z => Hnum z
  | JStr s => Hstr s
  | JArr items =>
      Harr items
        ((fix all (l : list JsValue) : Forall P l :=
            match l with
            | [] => List.Forall_nil P
            | x :: rest => @List.Forall_cons _ P x rest (JsValue_elements_ind x) (all rest)
            end) items)
  | JObj props => Hobj props
  end.

End JsValue_induction.

(** ToString throws exactly on the values [poisoned] describes, and
    otherwise returns what [js_toString] says. *)
Lemma ToString_spec (v : JsValue) :
  ToString v = if poisoned v then Rejected not_primitive else Resolved (js_toString v).
Proof.
  induction v as [| |b|z|s|items IH|props] using JsValue_elements_ind;
    try reflexivity; [by destruct b|].
  cbn [ToString poisoned js_toString].
  match goal with
  | |- and_then (?elements items) _ = _ =>
      assert (Hall : elements items
                = if existsb poisoned items then Rejected not_primitive
                  else Resolved (map (λ x, match x with
                                           | JUndefined | JNull => ""
                                           | _ => js_toString x
                                           end) items))
  end.
  { induction IH as [|x rest Hx _ IHrest]; [reflexivity|].
    cbn [existsb map]. rewrite IHrest.
    destruct x; cbn [and_then poisoned orb] in *;
      try (by destruct (existsb poisoned rest)).
    - destruct b; by destruct (existsb poisoned rest).
    - rewrite Hx. cbn [poisoned]. destruct (existsb poisoned items); [done|].
      cbn [and_then orb]. by destruct (existsb poisoned rest).
    - rewrite Hx. cbn [poisoned]. destruct (has_own "toString" props); [done|].
      cbn [and_then orb]. by destruct (existsb poisoned rest). }
  rewrite Hall. by destruct (existsb poisoned items).
Qed.

Lemma ToString_returns (v : JsValue) :
  poisoned v = false → ToString v = Resolved (js_toString v).
Proof. intros Hv. by rewrite ToString_spec, Hv. Qed.

Lemma ToString_throws (v : JsValue) :
  poisoned v = true → ToString v = Rejected not_primitive.
Proof. intros Hv. by rewrite ToString_spec, Hv. Qed.

Lemma destructure_spec (k : string) (v : JsValue) :
  if nullish v then resolves (destructure k v) = false else destructure k v = Resolved v.
Proof. by destruct v. Qed.

Lemma fabricate_spec (tool : string) (arguments : JsValue) (w : World) :
  network (fabricate tool arguments w).2 = network w
  ∧ if needs_object tool && nullish arguments
    then resolves (fabricate tool arguments w).1 = false
    else if unconvertible tool arguments
    then (fabricate tool arguments w).1 = Rejected not_primitive
    else ∃ t, (fabricate tool arguments w).1 = Resolved (text_result t)
              ∧ fabricated tool arguments t.
Proof.
  unfold fabricate, fabricated, needs_object, unconvertible, interpolated.
  destruct (String.eqb tool "github-repo-info"); [|destruct (String.eqb tool "twitter-X-post")];
    simpl orb; cbv iota; cbn [existsb andb].
  - pose proof (destructure_spec "owner" arguments) as Hd.
    destruct (nullish arguments).
    + destruct (destructure "owner" arguments); [discriminate|]. by split.
    + rewrite Hd, !ToString_spec.
      destruct (poisoned (get_prop "owner" arguments)); [by split|].
      destruct (poisoned (get_prop "repo" arguments)); [by split|].
      cbn [orb]. split; [reflexivity|].
      eexists. split; [reflexivity|]. eexists _, _, _. split; [|reflexivity].
      repeat split; by apply N.mod_lt.
  - pose proof (destructure_spec "status" arguments) as Hd.
    destruct (nullish arguments).
    + destruct (destructure "status" arguments); [discriminate|]. by split.
    + rewrite Hd, ToString_spec.
      destruct (poisoned (get_prop "status" arguments)); [by split|].
      cbn [orb]. split; [reflexivity|].
      eexists. split; [reflexivity|]. eexists _, _. split; [|reflexivity].
      repeat split; by apply N.mod_lt.
  - simpl. split; [done|]. by eexists.
Qed.

(** C8, counterexample: [callTool] rejects when the arguments are
    [undefined] and the tool is one of the two it destructures them for. *)
Lemma callTool_rejects_undefined_arguments :
  resolves (callTool "github-repo-info" JUndefined (Impl.new None None)
              {| entropy := {| draws := λ _, 0%N; used := 0 |};
                 clock := λ _, ""; ticks := 0; network := [] |}).1.1 = false.
Proof. reflexivity. Qed.

Lemma connect_facts (c : MCPClientImpl) (w : World) :
  (connect c w).1.1 = Resolved tt
  ∧ connected (connect c w).1.2 = true
  ∧ sessionId (connect c w).1.2 = (generateUUID w).1
  ∧ network (connect c w).2 = network w.
Proof.
  pose proof (generateUUID_network w) as Hnet. unfold connect.
  destruct (generateUUID w) as [id w']. repeat split. exact Hnet.
Qed.

Lemma callTool_facts (tool : string) (arguments : JsValue) (c : MCPClientImpl) (w : World) :
  network (callTool tool arguments c w).2 = network w
  ∧ connected (callTool tool arguments c w).1.2 = true
  ∧ if needs_object tool && nullish arguments
    then resolves (callTool tool arguments c w).1.1 = false
    else if unconvertible tool arguments
    then (callTool tool arguments c w).1.1 = Rejected not_primitive
    else ∃ t, (callTool tool arguments c w).1.1 = Resolved (text_result t)
              ∧ fabricated tool arguments t.
Proof.
  unfold callTool.
  destruct (ensure_connected_spec c w) as [Hconn Hnet].
  destruct (ensure_connected c w) as [c1 w1]. cbn [fst snd] in Hconn, Hnet.
  destruct (fabricate_spec tool arguments w1) as [Hnet2 Hres].
  destruct (fabricate tool arguments w1) as [r w2]. cbn [fst snd] in *.
  split; [congruence|]. split; [exact Hconn|].
  destruct (needs_object tool && nullish arguments); [by destruct r|].
  destruct (unconvertible tool arguments); [by subst r|].
  destruct Hres as (t & -> & Ht). by exists t.
Qed.

(** C8, as amended: the client issues no HTTP request.  [connect] always
    resolves, with a session identifier drawn locally from [Math.random].
    [callTool] checks the arguments against no schema.  For
    [github-repo-info] and [twitter-X-post] it rejects with a TypeError
    when the arguments are [null] or [undefined] (the destructuring
    throws), and when a property it puts into a template literal -- [owner]
    or [repo], [status] -- cannot be converted to a string, which is the
    case of an object with a [toString] member of its own.  In every other
    case, and for every other tool name, it resolves with a locally
    fabricated response: random repository statistics, a random tweet id,
    or an echo of the call.  The numbers inside the arguments are taken to
    be safe integers. *)
Theorem client_answers_locally
    (tool : string) (arguments : JsValue) (c : MCPClientImpl) (w : World) :
  safe arguments = true →
  (connect c w).1.1 = Resolved tt
  ∧ connected (connect c w).1.2 = true
  ∧ sessionId (connect c w).1.2 = (generateUUID w).1
  ∧ network (connect c w).2 = network w
  ∧ network (callTool tool arguments c w).2 = network w
  ∧ if needs_object tool && nullish arguments
    then resolves (callTool tool arguments c w).1.1 = false
    else if unconvertible tool arguments
    then (callTool tool arguments c w).1.1 = Rejected not_primitive
    else ∃ t, (callTool tool arguments c w).1.1 = Resolved (text_result t)
              ∧ fabricated tool arguments t.
Proof.
  intros _.
  destruct (connect_facts c w) as (H1 & H2 & H3 & H4).
  destruct (callTool_facts tool arguments c w) as (H5 & _ & H6).
  exact (conj H1 (conj H2 (conj H3 (conj H4 (conj H5 H6))))).
Qed.

Lemma client_answers_locally_witness :
  (callTool "github-repo-info"
     (JObj [("owner", JObj [("toString", JNum 1)]); ("repo", JStr "x")])
     (Impl.new None None)
     {| entropy := {| draws := λ _, 0%N; used := 0 |};
        clock := λ _, ""; ticks := 0; network := [] |}).1.1
  = Rejected not_primitive.
Proof.
  exact (proj2 (proj2 (proj2 (proj2 (proj2
    (client_answers_locally "github-repo-info"
       (JObj [("owner", JObj [("toString", JNum 1)]); ("repo", JStr "x")])
       (Impl.new None None)
       {| entropy := {| draws := λ _, 0%N; used := 0 |};
          clock := λ _, ""; ticks := 0; network := [] |} eq_refl)))))).
Defined.

End ClientProps.

(** * Properties of the pattern matcher *)

Module RegexProps.

Import Regex.

Lemma strip_prefix_length (p s r : string) :
  strip_prefix p s = Some r → String.length s = (String.length p + String.length r)%nat.
Proof.
  revert s. induction p as [|a p IH]; intros s Hs; simpl in *.
  - by injection Hs as ->.
  - destruct s as [|b s]; [done|]. destruct (Ascii.eqb a b); [|done].
    simpl. f_equal. by apply IH.
Qed.

Lemma first_prefix_shorter (ps : list string) (s r : string) :
  Forall (λ p, 0 < String.length p)%nat ps →
  first_prefix ps s = Some r → (String.length r < String.length s)%nat.
Proof.
  induction 1 as [|p ps Hp _ IH]; simpl; [done|].
  destruct (strip_prefix p s) as [r'|] eqn:Hs; [|exact IH].
  intros [= ->]. apply strip_prefix_length in Hs. lia.
Qed.

Lemma WhiteSpace_nonempty : Forall (λ p, 0 < String.length p)%nat WhiteSpace.
Proof. unfold WhiteSpace. simpl. repeat constructor. Qed.

Lemma eat_shorter (c : CharClass) (s r : string) :
  eat c s = Some r → (String.length r < String.length s)%nat.
Proof.
  destruct c; unfold eat.
  - apply first_prefix_shorter, WhiteSpace_nonempty.
  - destruct s as [|a s]; [done|]. destruct (is_name_char a); [|done].
    intros [= ->]. simpl. lia.
Qed.

(** The bound on the run never cuts a run short: any two bounds above
    the length of the text give the same result. *)
Lemma plus_fuel_enough {R} (n m : nat) (c : CharClass) (s : string) (k : string → option R) :
  (String.length s < n)%nat → (String.length s < m)%nat →
  plus_fuel n c s k = plus_fuel m c s k.
Proof.
  revert m s. induction n as [|n IH]; intros m s Hn Hm; [lia|].
  destruct m as [|m]; [lia|]. simpl.
  destruct (eat c s) as [rest|] eqn:Heat; [|done].
  apply eat_shorter in Heat. by rewrite (IH m rest) by lia.
Qed.

(** [c+] unfolds as the regular expression does: one character of the
    class, then either more of them or the rest of the pattern. *)
Lemma plus_unfold {R} (c : CharClass) (s : string) (k : string → option R) :
  plus_fuel (S (String.length s)) c s k
  = match eat c s with
    | None => None
    | Some rest =>
        match plus_fuel (S (String.length rest)) c rest k with
        | Some r => Some r
        | None => k rest
        end
    end.
Proof.
  simpl. destruct (eat c s) as [rest|] eqn:Heat; [|done].
  apply eat_shorter in Heat.
  by rewrite (plus_fuel_enough (String.length s) (S (String.length rest))) by lia.
Qed.

End RegexProps.

(** * Properties of the planner *)

Module PlannerProps.

Import Client Gemini Regex PlannerTerms.

Lemma attempt_usable (g : GeminiService) (tools : list Tool) :
  attempt g tools = from_part <$> usable_part g tools.
Proof.
  unfold attempt, usable_part, primary, and_then.
  destruct (String.eqb (apiKey g) ""); [done|]. simpl.
  destruct (ai g (request g tools)) as [response|err]; [|done].
  destruct (candidates response) as [[|candidate others]|]; try done.
  by destruct (candidate_content candidate ≫= content_parts) as [[|part rest]|].
Qed.

Section WithLowerCase.

Variable toLowerCase : string → string.

Lemma generateContent_spec (g : GeminiService) (tools : list Tool) :
  generateContent toLowerCase g tools
  = Resolved match usable_part g tools with
             | Some part => from_part part
             | None => rule_based (userQuery toLowerCase (chatHistory g))
             end.
Proof.
  unfold generateContent. rewrite attempt_usable.
  by destruct (usable_part g tools).
Qed.

Lemma usable_part_None (g : GeminiService) (tools : list Tool) :
  usable_part g tools = None ↔ primary_failure g tools.
Proof.
  unfold usable_part. split.
  - destruct (String.eqb (apiKey g) "") eqn:Hkey.
    { intros _. apply missing_key. by apply String.eqb_eq. }
    destruct (ai g (request g tools)) as [response|err] eqn:Hai;
      [|intros _; by eapply backend_threw].
    destruct (candidates response) as [[|candidate others]|] eqn:Hc;
      try (intros _; eapply no_candidates; eauto; fail).
    destruct (candidate_content candidate ≫= content_parts) as [[|part rest]|] eqn:Hp;
      try done; intros _; eapply invalid_content; eauto.
  - intros [Hkey | err Herr | response Hai Hc | response candidate others Hai Hc Hp].
    + by rewrite Hkey.
    + rewrite Herr. by destruct (String.eqb _ _).
    + rewrite Hai. destruct (String.eqb _ _); [done|]. by destruct Hc as [-> | ->].
    + rewrite Hai, Hc. destruct (String.eqb _ _); [done|]. by destruct Hp as [-> | ->].
Qed.

Lemma usable_part_Some (g : GeminiService) (tools : list Tool)
    (response : GenerateContentResponse) (candidate : Candidate) (others : list Candidate)
    (c : Content) (part : Part) (rest : list Part) :
  apiKey g ≠ "" →
  ai g (request g tools) = Resolved response →
  candidates response = Some (candidate :: others) →
  candidate_content candidate = Some c →
  content_parts c = Some (part :: rest) →
  usable_part g tools = Some part.
Proof.
  intros Hkey Hai Hc Hcontent Hparts. unfold usable_part.
  apply String.eqb_neq in Hkey. rewrite Hkey, Hai, Hc, Hcontent. simpl. by rewrite Hparts.
Qed.

Lemma rule_based_one_variant (q : string) :
  xorb (has_call (rule_based q)) (has_text (rule_based q)) = true.
Proof.
  unfold rule_based.
  repeat match goal with |- context [if ?b then _ else _] => destruct b end; reflexivity.
Qed.

Lemma from_part_variants (part : Part) :
  has_call (from_part part) = named_call part
  ∧ has_text (from_part part) = truthy_str (part_text part).
Proof.
  unfold has_call, has_text, from_part, named_call. simpl.
  destruct (part_functionCall part) as [fc|]; [|done].
  by destruct (truthy_str (fc_name fc)).
Qed.

(** the lower-cased text of the latest user message is what the rules
    inspect *)
Lemma userQuery_latest (g : GeminiService) (msg : string) :
  userQuery toLowerCase (chatHistory (addUserMessage msg g)) = toLowerCase msg.
Proof.
  unfold userQuery, addUserMessage, push. simpl chatHistory.
  rewrite filter_app, filter_cons_True, filter_nil by done.
  rewrite last_snoc. simpl.
  destruct (String.eqb (toLowerCase msg) "") eqn:E; [|done].
  symmetry. by apply String.eqb_eq.
Qed.

End WithLowerCase.

End PlannerProps.

Module PlannerClaims.

Import Client Gemini Regex PlannerTerms PlannerProps.

(** C4, counterexample: the proposal copies both fields of the model's
    part, so both variants are populated at once. *)
Lemma proposal_with_both_variants :
  ∃ r, generateContent Server.lower
         (addUserMessage "add 2 and 3" (Gemini.new chatty_backend (Some "key") None)) []
       = Resolved r
       ∧ has_call r && has_text r = true.
Proof. eexists. split; reflexivity. Qed.

(** C4, as amended: every proposal produced by the rule-based fallback has
    exactly one of the two variants populated.  A proposal taken from a
    model response copies the first part of the first candidate: its
    function-call variant is populated exactly when that part carries a
    function call with a name, and its text variant exactly when the part
    carries a non-empty text -- both at once when the part carries both,
    neither when it carries neither. *)
Theorem proposal_variants (toLowerCase : string → string) (g : GeminiService) (tools : list Tool) :
  ∃ r, generateContent toLowerCase g tools = Resolved r
       ∧ match usable_part g tools with
         | None => xorb (has_call r) (has_text r) = true
         | Some part =>
             has_call r = named_call part ∧ has_text r = truthy_str (part_text part)
         end.
Proof.
  rewrite generateContent_spec. eexists. split; [reflexivity|].
  destruct (usable_part g tools) as [part|].
  - apply from_part_variants.
  - apply rule_based_one_variant.
Qed.

(** what the backend's answer has to look like for the primary path to
    succeed: the key is set, and the first candidate has a first part *)
Lemma usable_part_inv (g : GeminiService) (tools : list Tool) (part : Part) :
  usable_part g tools = Some part →
  ∃ response candidate others c rest,
    apiKey g ≠ ""
    ∧ ai g (request g tools) = Resolved response
    ∧ candidates response = Some (candidate :: others)
    ∧ candidate_content candidate = Some c
    ∧ content_parts c = Some (part :: rest).
Proof.
  unfold usable_part.
  destruct (String.eqb (apiKey g) "") eqn:Hkey; [discriminate|].
  destruct (ai g (request g tools)) as [response|err]; [|discriminate].
  destruct (candidates response) as [[|candidate others]|] eqn:Hc; [discriminate| |discriminate].
  destruct (candidate_content candidate) as [c|] eqn:Hcontent; [|discriminate].
  cbn [mbind option_bind].
  destruct (content_parts c) as [[|part' rest]|] eqn:Hparts; [discriminate| |discriminate].
  intros [= <-]. exists response, candidate, others, c, rest.
  split; [by apply String.eqb_neq|done].
Qed.

(** C5: whenever the key is set and the backend answers with a candidate
    that has a part, the planner returns that part's response: the text is
    the part's text, and the function call is the part's, with its name
    and its arguments (an empty object when the part gives none) -- absent
    when the part has no function call or one without a name.  This is no
    failure of the primary path.  The rule-based proposal is returned when
    the primary path fails (missing key, thrown error, no candidate, no
    part), and these two cases are all there are. *)
Theorem model_response_preferred
    (toLowerCase : string → string) (g : GeminiService) (tools : list Tool) :
  (∀ response candidate others c part rest,
     apiKey g ≠ "" →
     ai g (request g tools) = Resolved response →
     candidates response = Some (candidate :: others) →
     candidate_content candidate = Some c →
     content_parts c = Some (part :: rest) →
     generateContent toLowerCase g tools
     = Resolved
         {| functionCall :=
              match part_functionCall part with
              | Some {| fc_name := Some name; fc_args := arguments |} =>
                  if String.eqb name "" then None
                  else Some {| fn := name;
                               args := if truthy arguments then arguments else JObj [] |}
              | _ => None
              end;
            text_of := part_text part |}
     ∧ ¬ primary_failure g tools)
  ∧ (primary_failure g tools →
     generateContent toLowerCase g tools
     = Resolved (rule_based (userQuery toLowerCase (chatHistory g))))
  ∧ (primary_failure g tools
     ∨ ∃ response candidate others c part rest,
         apiKey g ≠ ""
         ∧ ai g (request g tools) = Resolved response
         ∧ candidates response = Some (candidate :: others)
         ∧ candidate_content candidate = Some c
         ∧ content_parts c = Some (part :: rest)).
Proof.
  split; [|split].
  - intros response candidate others c part rest Hkey Hai Hc Hcontent Hparts.
    pose proof (usable_part_Some g tools response candidate others c part rest
                  Hkey Hai Hc Hcontent Hparts) as Hpart.
    split.
    + rewrite generateContent_spec, Hpart. unfold from_part. f_equal. f_equal.
      destruct (part_functionCall part) as [[[name|] arguments]|]; [|done..].
      cbn [truthy_str fc_name fc_args default]. unfold js_or.
      by destruct (String.eqb name "").
    + intros Hfail. apply usable_part_None in Hfail. congruence.
  - intros Hfail. apply usable_part_None in Hfail.
    by rewrite generateContent_spec, Hfail.
  - destruct (usable_part g tools) as [part|] eqn:Hpart.
    + right. apply usable_part_inv in Hpart
        as (response & candidate & others & c & rest & H).
      by exists response, candidate, others, c, part, rest.
    + left. by apply usable_part_None.
Qed.

Lemma model_response_preferred_witness :
  generateContent Server.lower (Gemini.new stub_backend (Some "key") None) []
  = Resolved {| functionCall :=
                  Some {| fn := "adder"; args := JObj [("a", JNum 2); ("b", JNum 3)] |};
                text_of := None |}.
Proof.
  refine (proj1 (proj1 (model_response_preferred Server.lower
                          (Gemini.new stub_backend (Some "key") None) [])
                   adder_response _ [] _ adder_part [] _ eq_refl eq_refl eq_refl eq_refl)).
  discriminate.
Defined.

(** C10: in fallback mode a query that mentions a repository is answered
    with a proposal to call [github-repo-info] and no text, before the
    tweet rules are looked at; the owner and the repository are the
    captures of the two patterns, and [EcoLash] and [Compilers] when the
    patterns do not match. *)
Theorem fallback_prefers_repository_lookup
    (toLowerCase : string → string) (g : GeminiService) (tools : list Tool) :
  usable_part g tools = None →
  let q := userQuery toLowerCase (chatHistory g) in
  includes q "repo" || includes q "repository" || includes q "github" = true →
  generateContent toLowerCase g tools
  = Resolved
      {| functionCall :=
           Some {| fn := "github-repo-info";
                   args := JObj [ ("owner", JStr (default "EcoLash" (group1 (search owner_re q))));
                                  ("repo", JStr (default "Compilers" (group1 (search repo_re q)))) ] |};
         text_of := None |}
  ∧ (search owner_re q = None → search repo_re q = None →
     generateContent toLowerCase g tools
     = Resolved
         {| functionCall :=
              Some {| fn := "github-repo-info";
                      args := JObj [("owner", JStr "EcoLash"); ("repo", JStr "Compilers")] |};
            text_of := None |}).
Proof.
  intros Hfallback q Hq.
  rewrite generateContent_spec, Hfallback. fold q.
  unfold rule_based. rewrite Hq. split; [done|].
  by intros -> ->.
Qed.

Lemma fallback_prefers_repository_lookup_witness :
  let g := addUserMessage "Post the GitHub stats" (Gemini.new stub_backend None None) in
  includes (userQuery Server.lower (chatHistory g)) "post" = true
  ∧ generateContent Server.lower g []
    = Resolved
        {| functionCall :=
             Some {| fn := "github-repo-info";
                     args := JObj [("owner", JStr "EcoLash"); ("repo", JStr "Compilers")] |};
           text_of := None |}.
Proof.
  split; [reflexivity|].
  apply (fallback_prefers_repository_lookup Server.lower
           (addUserMessage "Post the GitHub stats" (Gemini.new stub_backend None None)) []);
    reflexivity.
Defined.

End PlannerClaims.

(** * Properties of the orchestration loop *)

Module ChatProps.

Import Client Gemini Chat PlannerTerms ChatTerms PlannerProps.

Local Open Scope list_scope.

Section Loop.

Variable toLowerCase : string → string.
Context {C : Type} `{MCPClient C}.

#[local] Abbreviation Container := (@Container C).

Lemma say_history (s : string) (b : bool) (ui : Container) : history (say s b ui) = history ui.
Proof. reflexivity. Qed.

Lemma say_messages (s : string) (b : bool) (ui : Container) :
  messages (say s b ui)
  = messages ui ++ [ {| message_of := s; isUser := b;
                        timestamp := Some (clock (world ui) (ticks (world ui))) |} ].
Proof. reflexivity. Qed.

(** what the three outcome branches do to the history *)
Lemma on_tool_call_history (fc : FunctionCall) (c : C) (ui : Container) :
  history (on_tool_call fc c ui).2 = history ui
  ∨ ∃ txt, history (on_tool_call fc c ui).2 = history ui ++ [model_turn txt].
Proof.
  unfold on_tool_call.
  destruct (callTool (fn fc) (args fc) c (world ui)) as [[[response|err] c'] w'].
  - right. by eexists.
  - by left.
Qed.

Lemma on_text_history (answer : string) (ui : Container) :
  history (on_text answer ui).2 = history ui ++ [model_turn answer].
Proof. reflexivity. Qed.

Lemma on_nothing_history (ui : Container) :
  on_nothing ui = (Rejected (Error "No response from Gemini"), ui).
Proof. reflexivity. Qed.

Lemma attempt_turn_history (message : string) (ui : Container) :
  ∃ first outcome,
    history (attempt_turn toLowerCase message ui).2 = history ui ++ first ++ outcome
    ∧ (first = [] ∨ first = [user_turn message])
    ∧ (outcome = [] ∨ ∃ txt, outcome = [model_turn txt]).
Proof.
  assert (Hnone : ∀ err,
    ∃ first outcome,
      history (Rejected err : Settled unit, ui).2 = history ui ++ first ++ outcome
      ∧ (first = [] ∨ first = [user_turn message])
      ∧ (outcome = [] ∨ ∃ txt, outcome = [model_turn txt])).
  { intros err. exists [], []. rewrite !app_nil_r. auto. }
  unfold attempt_turn.
  destruct (client ui) as [c|]; [destruct (isConnected ui)|]; try apply Hnone.
  set (ui1 := with_gemini (addUserMessage message (gemini ui)) ui).
  assert (Hbase : history ui1 = history ui ++ [user_turn message]) by reflexivity.
  assert (Hstay : ∀ h, h = history ui1 →
    ∃ outcome, h = history ui ++ [user_turn message] ++ outcome
      ∧ ([user_turn message] = [] ∨ [user_turn message] = [user_turn message])
      ∧ (outcome = [] ∨ ∃ txt, outcome = [model_turn txt])).
  { intros h ->. exists []. rewrite Hbase, app_nil_r. auto. }
  assert (Hgrow : ∀ h txt, h = history ui1 ++ [model_turn txt] →
    ∃ outcome, h = history ui ++ [user_turn message] ++ outcome
      ∧ ([user_turn message] = [] ∨ [user_turn message] = [user_turn message])
      ∧ (outcome = [] ∨ ∃ txt, outcome = [model_turn txt])).
  { intros h txt ->. exists [model_turn txt]. rewrite Hbase, <- app_assoc.
    split; [done|]. split; [by right|]. right. by exists txt. }
  exists [user_turn message].
  destruct (generateContent toLowerCase (gemini ui1) (tools ui1)) as [r|err];
    [|by apply Hstay].
  destruct (functionCall r) as [fc|].
  - destruct (on_tool_call_history fc c ui1) as [Hh | [txt Hh]].
    + by apply Hstay.
    + by apply (Hgrow _ txt).
  - destruct (truthy_str (text_of r)).
    + apply (Hgrow _ (default "" (text_of r))). apply on_text_history.
    + by apply Hstay.
Qed.

Lemma handleSendMessage_history (message : string) (ui : Container) :
  history (handleSendMessage toLowerCase message ui)
  = history (attempt_turn toLowerCase message (setIsLoading true (say message true ui))).2.
Proof.
  unfold handleSendMessage.
  by destruct (attempt_turn _ _ _) as [[?|err] ui2].
Qed.

(** C6: when the proposal has neither variant the turn ends in the error
    message built from [No response from Gemini] and the outcome branch
    appends nothing -- the history holds the user turn of step (1) and no
    more; and in every turn the history grows by the user turn (when the
    client is connected) followed by at most one model turn. *)
Theorem no_response_turn_appends_nothing :
  (∀ (message : string) (ui : Container) (c : C) (r : GeminiResponse),
     client ui = Some c → isConnected ui = true →
     generateContent toLowerCase (addUserMessage message (gemini ui)) (tools ui) = Resolved r →
     has_call r = false → has_text r = false →
     let ui' := handleSendMessage toLowerCase message ui in
     history ui' = history ui ++ [user_turn message]
     ∧ (∃ t0 t1,
          messages ui'
          = messages ui
            ++ [ {| message_of := message; isUser := true; timestamp := Some t0 |};
                 {| message_of := "Error: No response from Gemini"; isUser := false;
                    timestamp := Some t1 |} ])
     ∧ isLoading ui' = false)
  ∧ (∀ (message : string) (ui : Container),
       ∃ first outcome,
         history (handleSendMessage toLowerCase message ui) = history ui ++ first ++ outcome
         ∧ (first = [] ∨ first = [user_turn message])
         ∧ (outcome = [] ∨ ∃ txt, outcome = [model_turn txt])).
Proof.
  split.
  - intros message ui c r Hc Hconn Hgen Hcall Htext ui'. subst ui'.
    unfold handleSendMessage, attempt_turn. simpl client. simpl isConnected.
    rewrite Hc, Hconn. simpl tools. simpl gemini. rewrite Hgen.
    unfold has_call in Hcall. destruct (functionCall r); [done|].
    unfold has_text in Htext. rewrite Htext.
    simpl. split; [done|]. split; [|done].
    rewrite <- app_assoc. by eexists _, _.
  - intros message ui. rewrite handleSendMessage_history.
    destruct (attempt_turn_history message (setIsLoading true (say message true ui)))
      as (first & outcome & Hh & Hfirst & Hout).
    exists first, outcome. split; [exact Hh|]. by split.
Qed.

End Loop.

Lemma no_response_turn_appends_nothing_witness :
  history (handleSendMessage Server.lower "hello" (session mute_backend)) = [user_turn "hello"]
  ∧ (∃ t0 t1,
       messages (handleSendMessage Server.lower "hello" (session mute_backend))
       = [ {| message_of := "hello"; isUser := true; timestamp := Some t0 |};
           {| message_of := "Error: No response from Gemini"; isUser := false;
              timestamp := Some t1 |} ])
  ∧ isLoading (handleSendMessage Server.lower "hello" (session mute_backend)) = false.
Proof.
  exact (proj1 (no_response_turn_appends_nothing Server.lower) "hello" (session mute_backend)
           (Impl.new None None) {| functionCall := None; text_of := None |}
           eq_refl eq_refl eq_refl eq_refl eq_refl).
Defined.

(** C7, counterexample: one turn on an empty history leaves two entries,
    and the assistant's text, produced by the bundled client without
    reaching the server, has no 5 in it. *)
Lemma adder_turn_history_has_two_entries :
  length (history (handleSendMessage Server.lower "add 2 and 3" (session stub_backend))) = 2%nat
  ∧ ∃ t, last_message (handleSendMessage Server.lower "add 2 and 3" (session stub_backend)) = Some t
         ∧ includes t "5" = false.
Proof. split; [vm_compute; reflexivity|]. eexists. split; vm_compute; reflexivity. Qed.

(** C7, as amended: with a stub backend proposing [adder({a: 2, b: 3})],
    one turn on the text [add 2 and 3] yields a final assistant turn whose
    text is the one returned by the client's [callTool] -- with the bundled
    [MCPClientImpl] the echo of the call, which does not contain 5 -- and
    afterwards the history has exactly 2 entries: the user turn and the
    tool result as a model turn. *)
Theorem adder_turn_echoes_the_call
    (toLowerCase : string → string) (c : Impl.MCPClientImpl) (w : World)
    (shown : list MessageProps) (tools : list Tool) :
  let ui := {| messages := shown; isLoading := false;
               gemini := Gemini.new stub_backend (Some "key") None;
               client := Some c; isConnected := true; tools := tools; world := w |} in
  let ui' := handleSendMessage toLowerCase "add 2 and 3" ui in
  history ui' = [user_turn "add 2 and 3"; model_turn adder_echo]
  ∧ length (history ui') = 2%nat
  ∧ last_message ui' = Some adder_echo
  ∧ includes adder_echo "5" = false.
Proof.
  intros ui ui'. subst ui ui'.
  unfold handleSendMessage, attempt_turn. simpl client. simpl isConnected. cbv iota.
  rewrite generateContent_spec.
  assert (Hpart : ∀ g, apiKey g = "key" → ai g = stub_backend →
            usable_part g tools = Some adder_part).
  { intros g Hk Ha. unfold usable_part. by rewrite Hk, Ha. }
  rewrite Hpart by reflexivity.
  change (functionCall (from_part adder_part))
    with (Some {| fn := "adder"; args := JObj [("a", JNum 2); ("b", JNum 3)] |}).
  cbv iota. unfold on_tool_call. simpl fn. simpl args.
  change (@callTool Impl.MCPClientImpl MCPClientImpl_client) with Impl.callTool.
  unfold Impl.callTool.
  destruct (Impl.ensure_connected c _) as [c1 w1].
  change (Impl.fabricate "adder" (JObj [("a", JNum 2); ("b", JNum 3)]) w1)
    with (Resolved (text_result adder_echo), w1).
  simpl. repeat split. unfold last_message. simpl. by rewrite last_snoc.
Qed.

End ChatProps.

(** * Further properties of the request router *)

Module RouterExtras.

Import Server RouterTerms RouterProps.

(** X1: a POST is turned away with status 400 and JSON-RPC code -32000,
    reaching no transport and leaving the state as it was, when it bears an
    identifier that is neither registered nor a member of
    [Object.prototype], and when it bears none (or an empty one) and is not
    an [initialize] request. *)
Theorem post_without_valid_session_rejected (run : SdkRun) (req : Request) (st : State) :
  (∃ sid, mcp_session_id req = Some sid ∧ sid ≠ ""
          ∧ transports st !! sid = None ∧ sid ∉ Object_prototype_keys)
  ∨ (truthy_str (mcp_session_id req) = false
     ∧ truthy (body req) && is_str "initialize" (get_prop "method" (body req)) = false) →
  app_post run req st = (st, bad_request (body req), None)
  ∧ status (bad_request (body req)) = 400
  ∧ payload (bad_request (body req))
    = Json (JObj [ ("jsonrpc", JStr "2.0");
                   ("error", JObj [ ("code", JNum (-32000));
                                    ("message", JStr "Bad Request: No valid session ID provided") ]);
                   ("id", request_id (body req)) ]).
Proof.
  intros Hcase. split; [|by split].
  destruct Hcase as [(sid & Hsid & Hne & Habsent & Hproto) | [Hnone Hbody]].
  - unfold app_post. rewrite Hsid. simpl default.
    rewrite (get_absent _ _ Habsent Hproto).
    apply String.eqb_neq in Hne. unfold truthy_str. by rewrite Hne.
  - by apply anonymous_non_initialize_rejected.
Qed.

Lemma post_without_valid_session_rejected_witness :
  app_post {| lifecycle := Initialize 1; completion := Throws None |}
           {| method := POST; mcp_session_id := Some "no-such-session";
              body := JObj [("id", JNum 7); ("method", JStr "tools/call")] |} one_session
  = (one_session,
     bad_request (JObj [("id", JNum 7); ("method", JStr "tools/call")]), None)
  ∧ status (bad_request (JObj [("id", JNum 7); ("method", JStr "tools/call")])) = 400
  ∧ payload (bad_request (JObj [("id", JNum 7); ("method", JStr "tools/call")]))
    = Json (JObj [ ("jsonrpc", JStr "2.0");
                   ("error", JObj [ ("code", JNum (-32000));
                                    ("message", JStr "Bad Request: No valid session ID provided") ]);
                   ("id", request_id (JObj [("id", JNum 7); ("method", JStr "tools/call")])) ]).
Proof.
  apply (post_without_valid_session_rejected
           {| lifecycle := Initialize 1; completion := Throws None |}
           {| method := POST; mcp_session_id := Some "no-such-session";
              body := JObj [("id", JNum 7); ("method", JStr "tools/call")] |} one_session).
  left. exists "no-such-session". split; [reflexivity|]. split; [discriminate|].
  split; [vm_compute; reflexivity|].
  intros Hin. vm_compute in Hin.
  repeat (apply elem_of_cons in Hin as [Heq | Hin]; [discriminate Heq|]).
  by apply elem_of_nil in Hin.
Defined.

(** X2: [handleSessionRequest] (GET and DELETE) answers 400 with the text
    [Invalid or missing session ID], reaches no transport and changes
    nothing when the header is missing or empty, or names an identifier
    that is neither registered nor a member of [Object.prototype]. *)
Theorem session_request_needs_live_session (run : SdkRun) (req : Request) (st : State) :
  truthy_str (mcp_session_id req) = false
  ∨ (∃ sid, mcp_session_id req = Some sid
            ∧ transports st !! sid = None ∧ sid ∉ Object_prototype_keys) →
  handleSessionRequest run req st
  = (st, {| status := 400; headers := []; payload := Send "Invalid or missing session ID" |}, None).
Proof.
  intros [Hnone | (sid & Hsid & Habsent & Hproto)]; unfold handleSessionRequest.
  - by rewrite Hnone.
  - rewrite Hsid. simpl default. rewrite (get_absent _ _ Habsent Hproto).
    simpl. by rewrite orb_true_r.
Qed.

Lemma session_request_needs_live_session_witness :
  handleSessionRequest {| lifecycle := Close; completion := Throws None |}
    {| method := DELETE; mcp_session_id := None; body := JUndefined |} one_session
  = (one_session,
     {| status := 400; headers := []; payload := Send "Invalid or missing session ID" |}, None).
Proof.
  apply (session_request_needs_live_session {| lifecycle := Close; completion := Throws None |}
           {| method := DELETE; mcp_session_id := None; body := JUndefined |} one_session).
  left. reflexivity.
Defined.

(** X3: an empty [mcp-session-id] header counts as no header at all, on
    every route: with an [initialize] payload it opens a new session, and
    otherwise the request is rejected. *)
Theorem empty_session_header_is_no_header
    (run : SdkRun) (m : Method) (b : JsValue) (st : State) :
  serve run {| method := m; mcp_session_id := Some ""; body := b |} st
  = serve run {| method := m; mcp_session_id := None; body := b |} st.
Proof. by destruct m. Qed.

(** X4: opening a session and then closing its transport gives back the
    table as it was before, provided the identifier was not in use. *)
Theorem initialize_then_close_restores_table
    (run : SdkRun) (req : Request) (st : State) (e : N) :
  truthy_str (mcp_session_id req) = false →
  truthy (body req) && is_str "initialize" (get_prop "method" (body req)) = true →
  lifecycle run = Initialize e →
  transports st !! randomUUID e = None →
  transports (onclose (length (heap st)) (app_post run req st).1.1) = transports st.
Proof.
  intros Hsid Hinit Hlc Hfresh.
  destruct run as [lc c]. simpl in Hlc. subst lc.
  unfold app_post. rewrite Hsid. simpl andb. cbv iota.
  apply andb_prop in Hinit as [Hb Hm]. rewrite Hb, Hm. simpl negb. simpl andb. cbv iota.
  unfold handleRequest. simpl lifecycle. cbv iota.
  rewrite randomUUID_truthy. cbn [fst].
  unfold onclose.
  assert (Hsess : session_of (length (heap st))
            (onsessioninitialized (length (heap st)) (randomUUID e)
               (set_sessionId (length (heap st)) (randomUUID e)
                  {| transports := transports st;
                     heap := (heap st ++ [ {| sessionId := None |} ])%list |}))
            = Some (randomUUID e)).
  { unfold session_of, onsessioninitialized, set_sessionId. simpl.
    rewrite list_lookup_insert_eq; [done|]. rewrite length_app. simpl. lia. }
  rewrite Hsess, randomUUID_truthy. simpl.
  rewrite delete_insert_eq. by apply delete_id.
Qed.

Lemma initialize_then_close_restores_table_witness :
  transports (onclose (length (heap init))
     (app_post {| lifecycle := Initialize 7; completion := Throws None |}
               {| method := POST; mcp_session_id := None;
                  body := JObj [("method", JStr "initialize")] |} init).1.1)
  = transports init.
Proof.
  apply (initialize_then_close_restores_table
           {| lifecycle := Initialize 7; completion := Throws None |}
           {| method := POST; mcp_session_id := None;
              body := JObj [("method", JStr "initialize")] |} init 7); reflexivity.
Defined.

(** X5: a session's binding survives whatever happens to other sessions:
    a request whose SDK run neither closes a transport nor generates the
    same identifier again, and the closure of a transport that holds a
    different identifier (or none), leave [transports[sid]] pointing at the
    same transport. *)
Theorem other_sessions_leave_binding (st : State) (ev : Event) (sid : string) (t : nat) :
  transports st !! sid = Some t →
  match ev with
  | Incoming run _ => lifecycle run ≠ Close ∧ generated_by run ≠ Some sid
  | Closes t' => session_of t' st ≠ Some sid
  end →
  transports (step st ev) !! sid = Some t.
Proof.
  intros Hbound Hev.
  assert (Hh : ∀ run t' s, lifecycle run ≠ Close → generated_by run ≠ Some sid →
            transports s = transports st →
            transports (handleRequest run t' s).1 !! sid = Some t).
  { intros [lc c] t' s Hlc Hgen Hs. unfold handleRequest, generated_by in *. simpl in *.
    destruct lc as [|e|]; simpl; [by rewrite Hs| |done].
    rewrite lookup_insert_ne; [by rewrite Hs|]. intros Heq. apply Hgen. by rewrite Heq. }
  destruct ev as [run req | t']; simpl.
  - destruct Hev as [Hlc Hgen].
    unfold serve, app_post, handleSessionRequest.
    destruct (method req);
      repeat match goal with
      | |- context [if ?b then _ else _] => destruct b
      | |- context [match transports_get ?m ?x with _ => _ end] => destruct (transports_get m x)
      end; simpl; try done.
    all: match goal with
         | |- context [handleRequest ?r ?t0 ?s] =>
             pose proof (Hh r t0 s Hlc Hgen eq_refl) as Hx;
             destruct (handleRequest r t0 s) eqn:E; simpl in *
         end.
    all: exact Hx.
  - unfold onclose. destruct (session_of t' st) as [sid'|] eqn:Hs; simpl; [|done].
    destruct (String.eqb sid' ""); simpl; [done|].
    rewrite lookup_delete_ne; [done|]. intros ->. by apply Hev.
Qed.

Lemma other_sessions_leave_binding_witness :
  session_of 1 two_sessions = Some (randomUUID 8)
  ∧ transports two_sessions !! randomUUID 8 = Some 1%nat
  ∧ transports (step two_sessions (Closes 1)) !! randomUUID 8 = None
  ∧ transports (step two_sessions (Closes 1)) !! randomUUID 7 = Some 0%nat.
Proof.
  split; [by vm_compute|]. split; [by vm_compute|]. split; [by vm_compute|].
  apply (other_sessions_leave_binding two_sessions (Closes 1) (randomUUID 7) 0).
  - vm_compute. reflexivity.
  - vm_compute. discriminate.
Defined.

(** X6: the router puts no header of its own on a response.  In the
    [initialize] branch the new transport has no [sessionId] yet when
    [if (transport.sessionId)] is evaluated, so the two [res.setHeader]
    calls never run: whenever a transport handled the POST and returned,
    the response is the transport's own (which carries [mcp-session-id]
    after a completed handshake). *)
Theorem router_adds_no_header (run : SdkRun) (req : Request) (st : State) (r : Response) (t : nat) :
  completion run = Returns r →
  (app_post run req st).2 = Some t →
  (app_post run req st).1.2
  = match lifecycle run with
    | Initialize e => with_headers [("mcp-session-id", randomUUID e)] r
    | Stay | Close => r
    end.
Proof.
  intros Hc Ht. destruct run as [lc c]. simpl in Hc. subst c.
  assert (Hid : ∀ x, with_headers [] x = x) by (by intros []).
  assert (Hh : ∀ t0 s, (let '(st', c) := handleRequest {| lifecycle := lc; completion := Returns r |} t0 s
                         in (st', settle_post [] (body req) c, Some t0)).1.2
            = match lc with
              | Initialize e => with_headers [("mcp-session-id", randomUUID e)] r
              | Stay | Close => r
              end).
  { intros t0 s. unfold handleRequest. simpl. destruct lc; simpl; by rewrite Hid. }
  unfold app_post in *. simpl lifecycle.
  destruct (truthy_str (mcp_session_id req)
            && slot_truthy (transports_get (transports st) (default "" (mcp_session_id req)))).
  - destruct (transports_get (transports st) (default "" (mcp_session_id req))); [apply Hh|done..].
  - destruct (negb (truthy_str (mcp_session_id req)) && truthy (body req)
              && is_str "initialize" (get_prop "method" (body req))); [|done].
    assert (Hnew : session_of (length (heap st))
              {| transports := transports st;
                 heap := (heap st ++ [ {| sessionId := None |} ])%list |} = None).
    { unfold session_of. simpl. by rewrite lookup_app_r, Nat.sub_diag. }
    rewrite Hnew. simpl truthy_str. cbv iota. apply Hh.
Qed.

Lemma router_adds_no_header_witness :
  (app_post {| lifecycle := Initialize 7;
               completion := Returns {| status := 200; headers := []; payload := Send "" |} |}
            {| method := POST; mcp_session_id := None;
               body := JObj [("method", JStr "initialize")] |} init).1.2
  = with_headers [("mcp-session-id", randomUUID 7)]
      {| status := 200; headers := []; payload := Send "" |}.
Proof.
  apply (router_adds_no_header
           {| lifecycle := Initialize 7;
              completion := Returns {| status := 200; headers := []; payload := Send "" |} |}
           {| method := POST; mcp_session_id := None;
              body := JObj [("method", JStr "initialize")] |} init
           {| status := 200; headers := []; payload := Send "" |} 0); reflexivity.
Defined.

End RouterExtras.

(** * Further properties of the server's tools *)

Module ToolExtras.

Import Tools ToolTerms ToolProps.

Lemma wrap_reported_text (createPost : CreatePost) (status : string) (e : Entropy) (inner : string) :
  (createPost status e).1 = Resolved (text_result inner) →
  String.eqb inner "" = false →
  (twitter_X_post createPost status e).1
  = Resolved (text_result (ESC +:+ "[1;32m" +:+ tweet_label +:+ ESC +:+ "[0m "
                           +:+ inner +:+ LF)).
Proof.
  intros Hr Hne. unfold twitter_X_post.
  destruct (createPost status e) as [res e']. cbn [fst] in Hr. subst res.
  cbn [fst and_then]. unfold first_text_or, text_result, text_part. cbn [content text].
  by rewrite Hne.
Qed.

Lemma v1_reports_text (api : TwitterApi) (status : string) (e : Entropy) :
  ∃ inner, (createPost_v1 api status e).1 = Resolved (text_result inner)
           ∧ String.eqb inner "" = false.
Proof.
  unfold createPost_v1, V1.createPost. cbn [fst].
  destruct (api status) as [id|err]; eexists; split; reflexivity.
Qed.

Lemma v2_reports_text (client : option TwitterApi) (status : string) (e : Entropy) :
  ∃ inner, (createPost_v2 client status e).1 = Resolved (text_result inner)
           ∧ String.eqb inner "" = false.
Proof.
  unfold createPost_v2, V2.createPost. cbn [fst].
  destruct client as [tweet|]; cbn [mbind option_bind].
  - unfold V2.via_api. destruct (tweet status) as [id|err].
    + eexists; split; reflexivity.
    + destruct (truthy (code_of err)); eexists; split; reflexivity.
  - eexists; split; reflexivity.
Qed.

(** X7: the fallback text [Tweet sent] of the handler is never used.  For
    either revision of [createPost] the handler's text is the banner, a
    space, the text [createPost] reported (never empty) and a newline. *)
Theorem handler_wraps_reported_text
    (api : TwitterApi) (client : option TwitterApi) (status : string) (e : Entropy) :
  ∀ createPost, createPost = createPost_v1 api ∨ createPost = createPost_v2 client →
  ∃ inner, (createPost status e).1 = Resolved (text_result inner)
    ∧ String.eqb inner "" = false
    ∧ (twitter_X_post createPost status e).1
      = Resolved (text_result (ESC +:+ "[1;32m" +:+ tweet_label +:+ ESC +:+ "[0m "
                               +:+ inner +:+ LF)).
Proof.
  intros createPost [-> | ->].
  - destruct (v1_reports_text api status e) as (inner & Hr & Hne).
    exists inner. split; [exact Hr|]. split; [exact Hne|]. by apply wrap_reported_text.
  - destruct (v2_reports_text client status e) as (inner & Hr & Hne).
    exists inner. split; [exact Hr|]. split; [exact Hne|]. by apply wrap_reported_text.
Qed.

Lemma handler_wraps_reported_text_witness :
  ∃ inner, (createPost_v2 None "hi" {| draws := λ _, 0%N; used := 0 |}).1
           = Resolved (text_result inner)
    ∧ String.eqb inner "" = false
    ∧ (twitter_X_post (createPost_v2 None) "hi" {| draws := λ _, 0%N; used := 0 |}).1
      = Resolved (text_result (ESC +:+ "[1;32m" +:+ tweet_label +:+ ESC +:+ "[0m "
                               +:+ inner +:+ LF)).
Proof.
  apply (handler_wraps_reported_text (λ _, Resolved "1") None "hi"
           {| draws := λ _, 0%N; used := 0 |} (createPost_v2 None)).
  by right.
Defined.

(** X8: in the second revision of [createPost] an API error that carries a
    truthy [code] is reported as [Error posting to Twitter], with the
    error's message (or [Unknown error]) and the code; no random number is
    drawn. *)
Theorem api_error_with_code_is_reported
    (tweet : TwitterApi) (status : string) (e : Entropy) (err : Thrown) :
  tweet status = Rejected err → truthy (code_of err) = true →
  V2.createPost (Some tweet) status e
  = (Resolved (text_result ("Error posting to Twitter: "
                            +:+ js_toString (js_or (message err) (JStr "Unknown error"))
                            +:+ " (Code: " +:+ js_toString (code_of err) +:+ ")")), e).
Proof.
  intros Herr Hcode. unfold V2.createPost, V2.via_api. simpl. by rewrite Herr, Hcode.
Qed.

Lemma api_error_with_code_is_reported_witness :
  V2.createPost
    (Some (λ _, Rejected {| message := JStr "Forbidden"; code_of := JNum 403; is_Error := true |}))
    "hi" {| draws := λ _, 0%N; used := 0 |}
  = (Resolved (text_result ("Error posting to Twitter: "
        +:+ js_toString (js_or (JStr "Forbidden") (JStr "Unknown error"))
        +:+ " (Code: " +:+ js_toString (JNum 403) +:+ ")")),
     {| draws := λ _, 0%N; used := 0 |}).
Proof.
  apply (api_error_with_code_is_reported
           (λ _, Rejected {| message := JStr "Forbidden"; code_of := JNum 403; is_Error := true |})
           "hi" {| draws := λ _, 0%N; used := 0 |}
           {| message := JStr "Forbidden"; code_of := JNum 403; is_Error := true |});
    reflexivity.
Defined.

(** X9: in the second revision of [createPost] an API error without a
    truthy [code] (a network failure, say) is not reported at all: the
    result is the mock success, exactly as if no client were configured. *)
Theorem api_error_without_code_is_masked
    (tweet : TwitterApi) (status : string) (e : Entropy) (err : Thrown) :
  tweet status = Rejected err → truthy (code_of err) = false →
  V2.createPost (Some tweet) status e = V2.createPost None status e
  ∧ ∃ t, (V2.createPost (Some tweet) status e).1 = Resolved (text_result t)
         ∧ startsWith t "Tweet created successfully: Tweet sent successfully: " = true.
Proof.
  intros Herr Hcode.
  assert (Heq : V2.createPost (Some tweet) status e = V2.createPost None status e).
  { unfold V2.createPost, V2.via_api. simpl. by rewrite Herr, Hcode. }
  split; [exact Heq|]. rewrite Heq.
  unfold V2.createPost, V2.mock, floor_random. simpl.
  eexists. split; [reflexivity|]. apply startsWith_app.
Qed.

Lemma api_error_without_code_is_masked_witness :
  V2.createPost (Some (λ _, Rejected (Error "socket hang up"))) "hi"
    {| draws := λ _, 0%N; used := 0 |}
  = V2.createPost None "hi" {| draws := λ _, 0%N; used := 0 |}
  ∧ ∃ t, (V2.createPost (Some (λ _, Rejected (Error "socket hang up"))) "hi"
            {| draws := λ _, 0%N; used := 0 |}).1 = Resolved (text_result t)
         ∧ startsWith t "Tweet created successfully: Tweet sent successfully: " = true.
Proof.
  apply (api_error_without_code_is_masked (λ _, Rejected (Error "socket hang up")) "hi"
           {| draws := λ _, 0%N; used := 0 |} (Error "socket hang up")); reflexivity.
Defined.

End ToolExtras.

(** * Further properties of the planner *)

Module RegexExtras.

Import Regex NameTerms RegexProps.

Lemma substring_prefix (p s : string) : substring 0 (String.length p) (p +:+ s) = p.
Proof.
  induction p as [|c p IH]; simpl.
  - by destruct s.
  - change (String c p +:+ s) with (String c (p +:+ s)). simpl. by rewrite IH.
Qed.

Lemma length_app_str (p s : string) :
  String.length (p +:+ s) = (String.length p + String.length s)%nat.
Proof.
  induction p as [|c p IH]; [done|].
  change (String c p +:+ s) with (String c (p +:+ s)). simpl. by rewrite IH.
Qed.

Lemma consumed_app (p s : string) : consumed (p +:+ s) s = p.
Proof.
  unfold consumed. rewrite length_app_str.
  replace (String.length p + String.length s - String.length s)%nat
    with (String.length p) by lia.
  apply substring_prefix.
Qed.

(** whatever [c+] hands to its continuation is a suffix of the text *)
Lemma plus_fuel_result {R} (n : nat) (c : CharClass) (s : string) (k : string → option R) (x : R) :
  plus_fuel n c s k = Some x → ∃ s', k s' = Some x.
Proof.
  revert s. induction n as [|n IH]; intros s; simpl; [done|].
  destruct (eat c s) as [rest|]; [|done].
  destruct (plus_fuel n c rest k) as [r|] eqn:Hr.
  - intros [= <-]. by apply (IH rest).
  - intros Hk. by exists rest.
Qed.

(** a run of [[a-zA-Z0-9_-]+] is a non-empty name in front of what the
    continuation receives *)
Lemma plus_name_result {R} (n : nat) (s : string) (k : string → option R) (x : R) :
  plus_fuel n NameChar s k = Some x →
  ∃ p s', s = p +:+ s' ∧ is_name p = true ∧ k s' = Some x.
Proof.
  revert s. induction n as [|n IH]; intros s; simpl; [done|].
  destruct s as [|a s]; [done|].
  destruct (is_name_char a) eqn:Ha; [|done].
  destruct (plus_fuel n NameChar s k) as [r|] eqn:Hr.
  - intros [= <-]. destruct (IH s Hr) as (p & s' & -> & Hp & Hk).
    exists (String a p), s'. split; [done|]. split; [|done].
    unfold is_name in *. simpl. rewrite Ha. simpl.
    by apply andb_prop in Hp as [_ ->].
  - intros Hk. exists (String a ""), s. split; [done|]. split; [|done].
    unfold is_name. simpl. by rewrite Ha.
Qed.

Lemma run_names_only (r : Re) :
  names_only r →
  ∀ {R} (s : string) (cap : option string) (k : string → option string → option R) (x : R),
    name_or_unset cap → run r s cap k = Some x →
    ∃ s' cap', name_or_unset cap' ∧ k s' cap' = Some x.
Proof.
  induction 1 as [l | a b _ IHa _ IHb | a b _ IHa _ IHb | a _ IHa | c | ];
    intros R s cap k x Hcap Hrun; cbn [run] in Hrun.
  - destruct (strip_prefix_ci l s) as [rest|]; [|done]. eauto.
  - destruct (run a s cap k) as [y|] eqn:Ha.
    + injection Hrun as ->. by eapply IHa.
    + by eapply IHb.
  - destruct (IHa _ _ _ _ _ Hcap Hrun) as (s1 & cap1 & Hcap1 & Hb).
    by eapply IHb.
  - destruct (run a s cap k) as [y|] eqn:Ha.
    + injection Hrun as ->. by eapply IHa.
    + eauto.
  - apply plus_fuel_result in Hrun as [s' Hk]. eauto.
  - apply plus_name_result in Hrun as (p & s' & -> & Hp & Hk).
    rewrite consumed_app in Hk. exists s', (Some p). by split.
Qed.

Lemma search_names_only (r : Re) (s : string) (cap : option string) :
  names_only r → search r s = Some cap → name_or_unset cap.
Proof.
  intros Hr. induction s as [|c s IH]; simpl.
  - destruct (run r "" None (λ _ cap0, Some cap0)) as [y|] eqn:Hrun; [|done].
    intros [= ->].
    destruct (run_names_only r Hr "" None _ _ I Hrun) as (s' & cap' & Hc & [= <-]). done.
  - destruct (run r (String c s) None (λ _ cap0, Some cap0)) as [y|] eqn:Hrun; [|exact IH].
    intros [= ->].
    destruct (run_names_only r Hr _ None _ _ I Hrun) as (s' & cap' & Hc & [= <-]). done.
Qed.

Lemma group1_is_name (r : Re) (s g : string) :
  names_only r → group1 (search r s) = Some g → is_name g = true.
Proof.
  intros Hr. unfold group1.
  destruct (search r s) as [[g'|]|] eqn:Hs; try done.
  destruct (String.eqb g' ""); [done|]. intros [= ->].
  by apply (search_names_only r s (Some g) Hr).
Qed.

End RegexExtras.

Module PlannerExtras.

Import Client Gemini Regex NameTerms PlannerTerms PlannerMoreTerms PlannerProps RegexExtras.

Lemma owner_re_names_only : names_only owner_re.
Proof. unfold owner_re. repeat constructor. Qed.

Lemma repo_re_names_only : names_only repo_re.
Proof. unfold repo_re. repeat constructor. Qed.

(** X10: the owner and the repository the fallback hands to
    [github-repo-info] are always non-empty strings over letters, digits,
    underscore and hyphen: a capture of one of the two patterns, or the
    default. *)
Theorem fallback_repository_arguments_are_names (q owner repo : string) :
  rule_based q = repository_lookup owner repo →
  is_name owner = true ∧ is_name repo = true.
Proof.
  unfold rule_based.
  destruct (includes q "repo" || includes q "repository" || includes q "github").
  - intros [= <- <-].
    split.
    + destruct (group1 (search owner_re q)) as [g|] eqn:Hg; [|reflexivity].
      by apply (group1_is_name owner_re q g owner_re_names_only).
    + destruct (group1 (search repo_re q)) as [g|] eqn:Hg; [|reflexivity].
      by apply (group1_is_name repo_re q g repo_re_names_only).
  - repeat match goal with |- context [if ?b then _ else _] => destruct b end; discriminate.
Qed.

Lemma fallback_repository_arguments_are_names_witness :
  is_name "torvalds" = true ∧ is_name "Compilers" = true.
Proof.
  apply (fallback_repository_arguments_are_names "the github page of torvalds").
  vm_compute. reflexivity.
Defined.

(** X11: the rule-based fallback has three outcomes only: a
    [github-repo-info] call, the generic test tweet, or the help text.  The
    tweet about a repository ([Check out owner/repo on GitHub ...]) is
    never proposed: its branch lies under a test that the repository rule
    has already decided. *)
Theorem fallback_outcomes (q : string) :
  (∃ owner repo, rule_based q = repository_lookup owner repo)
  ∨ rule_based q = generic_tweet
  ∨ rule_based q = help_answer.
Proof.
  unfold rule_based.
  destruct (includes q "repo") eqn:Hrepo; [left; simpl; eauto|].
  destruct (includes q "repository") eqn:Hrepository; [left; simpl; eauto|].
  destruct (includes q "github"); [left; simpl; eauto|].
  simpl. right.
  destruct (includes q "post" || includes q "tweet" || includes q "twitter" || includes q "x");
    [by left | by right].
Qed.

(** X12: in fallback mode any query that contains the letter x and none
    of the repository words is answered by a proposal to post the generic
    test tweet. *)
Theorem fallback_letter_x_posts_a_tweet
    (toLowerCase : string → string) (g : GeminiService) (tools : list Tool) :
  usable_part g tools = None →
  let q := userQuery toLowerCase (chatHistory g) in
  includes q "repo" || includes q "repository" || includes q "github" = false →
  includes q "x" = true →
  generateContent toLowerCase g tools = Resolved generic_tweet.
Proof.
  intros Hfallback q Hrepo Hx.
  rewrite generateContent_spec, Hfallback. fold q.
  unfold rule_based. rewrite Hrepo, Hx, !orb_true_r.
  apply orb_false_elim in Hrepo as [Hrepo _].
  apply orb_false_elim in Hrepo as [-> ->]. reflexivity.
Qed.

Lemma fallback_letter_x_posts_a_tweet_witness :
  generateContent Server.lower
    (addUserMessage "Please explain taxes" (Gemini.new mute_backend None None)) []
  = Resolved generic_tweet.
Proof.
  apply (fallback_letter_x_posts_a_tweet Server.lower
           (addUserMessage "Please explain taxes" (Gemini.new mute_backend None None)) []);
    reflexivity.
Defined.

End PlannerExtras.

(** * Further properties of the orchestration loop *)

Module ChatExtras.

Import Client Gemini Chat PlannerTerms ChatTerms ChatMoreTerms ClientTerms PlannerProps ChatProps.

Local Open Scope list_scope.

Section Loop.

Variable toLowerCase : string → string.
Context {C : Type} `{MCPClient C}.

#[local] Abbreviation Container := (@Container C).

Lemma attempt_turn_messages (message : string) (ui : Container) :
  match (attempt_turn toLowerCase message ui).1 with
  | Resolved _ =>
      ∃ reply, messages (attempt_turn toLowerCase message ui).2 = messages ui ++ [reply]
               ∧ isUser reply = false
  | Rejected _ => messages (attempt_turn toLowerCase message ui).2 = messages ui
  end.
Proof.
  unfold attempt_turn.
  destruct (client ui) as [c|]; [destruct (isConnected ui)|]; try reflexivity.
  set (ui1 := with_gemini (addUserMessage message (gemini ui)) ui).
  destruct (generateContent toLowerCase (gemini ui1) (tools ui1)) as [r|err]; [|reflexivity].
  destruct (functionCall r) as [fc|].
  - unfold on_tool_call.
    destruct (callTool (fn fc) (args fc) c (world ui1)) as [[[response|err] c'] w'].
    + cbn [fst snd]. eexists. split; [reflexivity|reflexivity].
    + reflexivity.
  - destruct (truthy_str (text_of r)).
    + cbn [fst snd on_text]. eexists. split; reflexivity.
    + reflexivity.
Qed.

(** X13: whatever happens in a turn -- tool call, text answer, no
    response, a rejected call, a disconnected client -- the chat shows the
    user's message followed by exactly one message that is not the
    user's, and the loading flag ends cleared. *)
Theorem turn_shows_one_reply (message : string) (ui : Container) :
  ∃ stamp reply,
    messages (handleSendMessage toLowerCase message ui)
    = messages ui ++ [ {| message_of := message; isUser := true; timestamp := Some stamp |};
                       reply ]
    ∧ isUser reply = false
    ∧ isLoading (handleSendMessage toLowerCase message ui) = false.
Proof.
  unfold handleSendMessage.
  pose proof (attempt_turn_messages message (setIsLoading true (say message true ui))) as Hm.
  destruct (attempt_turn toLowerCase message (setIsLoading true (say message true ui)))
    as [[u|err] ui2]; cbn [fst snd] in Hm.
  - destruct Hm as (reply & Hm & Hreply).
    exists (clock (world ui) (ticks (world ui))), reply.
    split; [|by split]. cbn [messages setIsLoading]. rewrite Hm.
    cbn [messages setIsLoading]. rewrite say_messages. by rewrite <- app_assoc.
  - eexists (clock (world ui) (ticks (world ui))), _.
    split.
    + cbn [messages setIsLoading]. rewrite say_messages, Hm.
      cbn [messages setIsLoading]. rewrite say_messages. by rewrite <- app_assoc.
    + split; reflexivity.
Qed.

(** X14: while the client is missing or not connected a turn does not
    touch the planner: its history is unchanged, and the reply shown is
    [Error: MCP client not connected]. *)
Theorem disconnected_turn_leaves_history (message : string) (ui : Container) :
  client ui = None ∨ isConnected ui = false →
  gemini (handleSendMessage toLowerCase message ui) = gemini ui
  ∧ last_message (handleSendMessage toLowerCase message ui)
    = Some "Error: MCP client not connected".
Proof.
  intros Hoff.
  assert (Hturn : ∀ ui1 : Container, client ui1 = None ∨ isConnected ui1 = false →
            attempt_turn toLowerCase message ui1
            = (Rejected (Error "MCP client not connected"), ui1)).
  { intros ui1 Hoff1. unfold attempt_turn.
    destruct Hoff1 as [-> | ->]; [done|]. by destruct (client ui1). }
  unfold handleSendMessage.
  rewrite (Hturn (setIsLoading true (say message true ui)) Hoff).
  split; [reflexivity|].
  unfold last_message. cbn [messages setIsLoading]. rewrite say_messages, last_snoc.
  reflexivity.
Qed.

Lemma attempt_turn_calls_tool
    (message : string) (ui1 : Container) (c : C) (r : GeminiResponse) (fc : FunctionCall) :
  client ui1 = Some c → isConnected ui1 = true →
  generateContent toLowerCase (addUserMessage message (gemini ui1)) (tools ui1) = Resolved r →
  functionCall r = Some fc →
  attempt_turn toLowerCase message ui1
  = on_tool_call fc c (with_gemini (addUserMessage message (gemini ui1)) ui1).
Proof.
  intros Hc Hconn Hgen Hfc. unfold attempt_turn. rewrite Hc, Hconn.
  cbn [gemini tools with_gemini]. by rewrite Hgen, Hfc.
Qed.

(** a turn whose tool call resolves: both the history and the reply come
    from the tool's response *)
Lemma resolved_tool_call_turn
    (message : string) (ui : Container) (c c' : C) (w' : World)
    (r : GeminiResponse) (fc : FunctionCall) (response : ToolResponse) :
  client ui = Some c → isConnected ui = true →
  generateContent toLowerCase (addUserMessage message (gemini ui)) (tools ui) = Resolved r →
  functionCall r = Some fc →
  callTool (fn fc) (args fc) c (toLocaleTimeString (world ui)).2 = (Resolved response, c', w') →
  ∃ ui2 : Container,
    handleSendMessage toLowerCase message ui
    = setIsLoading false (say (response_text response) false ui2)
    ∧ history ui2 = history ui ++ [user_turn message; model_turn (response_text response)].
Proof.
  intros Hc Hconn Hgen Hfc Hcall.
  unfold handleSendMessage.
  rewrite (attempt_turn_calls_tool message (setIsLoading true (say message true ui)) c r fc
             Hc Hconn Hgen Hfc).
  unfold on_tool_call.
  change (world (with_gemini (addUserMessage message
                   (gemini (setIsLoading true (say message true ui))))
                   (setIsLoading true (say message true ui))))
    with (toLocaleTimeString (world ui)).2.
  rewrite Hcall. eexists. split; [reflexivity|].
  unfold history. cbn. by rewrite <- app_assoc.
Qed.

(** X15: when the proposal has a function call the loop calls the tool,
    even if the proposal has text as well; with a resolving call the
    history gains the user turn and the tool's text parts, joined by
    spaces, as a model turn, and that text is the reply shown.  The
    proposal's own text is dropped. *)
Theorem tool_call_wins_over_text
    (message : string) (ui : Container) (c c' : C) (w' : World)
    (r : GeminiResponse) (fc : FunctionCall) (response : ToolResponse) :
  client ui = Some c → isConnected ui = true →
  generateContent toLowerCase (addUserMessage message (gemini ui)) (tools ui) = Resolved r →
  functionCall r = Some fc →
  callTool (fn fc) (args fc) c (toLocaleTimeString (world ui)).2 = (Resolved response, c', w') →
  history (handleSendMessage toLowerCase message ui)
  = history ui ++ [user_turn message; model_turn (response_text response)]
  ∧ last_message (handleSendMessage toLowerCase message ui) = Some (response_text response).
Proof.
  intros Hc Hconn Hgen Hfc Hcall.
  destruct (resolved_tool_call_turn message ui c c' w' r fc response Hc Hconn Hgen Hfc Hcall)
    as (ui2 & -> & Hhist).
  split.
  - exact Hhist.
  - unfold last_message. cbn [messages setIsLoading]. by rewrite say_messages, last_snoc.
Qed.

(** a turn whose tool call rejects: the error is shown, the history keeps
    the user turn only *)
Lemma rejected_tool_call_turn
    (message : string) (ui : Container) (c c' : C) (w' : World)
    (r : GeminiResponse) (fc : FunctionCall) (err : Thrown) :
  client ui = Some c → isConnected ui = true →
  generateContent toLowerCase (addUserMessage message (gemini ui)) (tools ui) = Resolved r →
  functionCall r = Some fc →
  callTool (fn fc) (args fc) c (toLocaleTimeString (world ui)).2 = (Rejected err, c', w') →
  ∃ ui2 : Container,
    handleSendMessage toLowerCase message ui
    = setIsLoading false (say (error_text err) false ui2)
    ∧ history ui2 = history ui ++ [user_turn message].
Proof.
  intros Hc Hconn Hgen Hfc Hcall.
  unfold handleSendMessage.
  rewrite (attempt_turn_calls_tool message (setIsLoading true (say message true ui)) c r fc
             Hc Hconn Hgen Hfc).
  unfold on_tool_call.
  change (world (with_gemini (addUserMessage message
                   (gemini (setIsLoading true (say message true ui))))
                   (setIsLoading true (say message true ui))))
    with (toLocaleTimeString (world ui)).2.
  rewrite Hcall. eexists. split; reflexivity.
Qed.

(** X16: when the tool call rejects, the turn ends with the error shown
    as the reply and the user turn stays in the history with no model turn
    after it. *)
Theorem rejected_tool_call_leaves_user_turn
    (message : string) (ui : Container) (c c' : C) (w' : World)
    (r : GeminiResponse) (fc : FunctionCall) (err : Thrown) :
  client ui = Some c → isConnected ui = true →
  generateContent toLowerCase (addUserMessage message (gemini ui)) (tools ui) = Resolved r →
  functionCall r = Some fc →
  callTool (fn fc) (args fc) c (toLocaleTimeString (world ui)).2 = (Rejected err, c', w') →
  history (handleSendMessage toLowerCase message ui) = history ui ++ [user_turn message]
  ∧ last_message (handleSendMessage toLowerCase message ui) = Some (error_text err).
Proof.
  intros Hc Hconn Hgen Hfc Hcall.
  unfold handleSendMessage.
  rewrite (attempt_turn_calls_tool message (setIsLoading true (say message true ui)) c r fc
             Hc Hconn Hgen Hfc).
  unfold on_tool_call.
  change (world (with_gemini (addUserMessage message
                   (gemini (setIsLoading true (say message true ui))))
                   (setIsLoading true (say message true ui))))
    with (toLocaleTimeString (world ui)).2.
  rewrite Hcall. split; [reflexivity|].
  unfold last_message. cbn [messages setIsLoading]. by rewrite say_messages, last_snoc.
Qed.

End Loop.

Lemma disconnected_turn_leaves_history_witness :
  gemini (handleSendMessage Server.lower "hello"
            {| messages := []; isLoading := false;
               gemini := Gemini.new mute_backend (Some "key") None;
               client := Some (Impl.new None None); isConnected := false;
               tools := []; world := quiet_world |})
  = Gemini.new mute_backend (Some "key") None
  ∧ last_message (handleSendMessage Server.lower "hello"
            {| messages := []; isLoading := false;
               gemini := Gemini.new mute_backend (Some "key") None;
               client := Some (Impl.new None None); isConnected := false;
               tools := []; world := quiet_world |})
    = Some "Error: MCP client not connected".
Proof.
  apply (disconnected_turn_leaves_history Server.lower "hello"
           {| messages := []; isLoading := false;
              gemini := Gemini.new mute_backend (Some "key") None;
              client := Some (Impl.new None None); isConnected := false;
              tools := []; world := quiet_world |}).
  by right.
Defined.

Lemma tool_call_wins_over_text_witness :
  history (handleSendMessage Server.lower "add 2 and 3" chatty_session)
  = history chatty_session
    ++ [user_turn "add 2 and 3"; model_turn (response_text (text_result adder_echo))]
  ∧ last_message (handleSendMessage Server.lower "add 2 and 3" chatty_session)
    = Some (response_text (text_result adder_echo)).
Proof.
  eapply (tool_call_wins_over_text Server.lower "add 2 and 3" chatty_session ready_client
            ready_client _
            {| functionCall := Some {| fn := "adder"; args := JObj [("a", JNum 2); ("b", JNum 3)] |};
               text_of := Some "Let me add those." |}
            {| fn := "adder"; args := JObj [("a", JNum 2); ("b", JNum 3)] |}
            (text_result adder_echo)); reflexivity.
Defined.

Lemma rejected_tool_call_leaves_user_turn_witness :
  history (handleSendMessage Server.lower "add 2 and 3" stranded_session)
  = history stranded_session ++ [user_turn "add 2 and 3"]
  ∧ last_message (handleSendMessage Server.lower "add 2 and 3" stranded_session)
    = Some (error_text (Error "Failed to fetch")).
Proof.
  eapply (rejected_tool_call_leaves_user_turn Server.lower "add 2 and 3" stranded_session tt tt _
            (from_part adder_part)
            {| fn := "adder"; args := JObj [("a", JNum 2); ("b", JNum 3)] |}
            (Error "Failed to fetch")); reflexivity.
Defined.

Lemma proposal_arguments_not_nullish
    (toLowerCase : string → string) (g : GeminiService) (tools : list Tool)
    (r : GeminiResponse) (fc : FunctionCall) :
  generateContent toLowerCase g tools = Resolved r → functionCall r = Some fc →
  nullish (args fc) = false.
Proof.
  rewrite generateContent_spec. intros [= <-].
  destruct (usable_part g tools) as [part|].
  - unfold from_part. cbn [functionCall].
    destruct (part_functionCall part) as [fcp|]; [|done].
    destruct (truthy_str (fc_name fcp)); [|done].
    intros [= <-]. cbn [args]. unfold js_or.
    destruct (truthy (fc_args fcp)) eqn:Ht; [|done].
    by destruct (fc_args fcp).
  - unfold rule_based.
    repeat match goal with |- context [if ?b then _ else _] => destruct b end;
      cbn [functionCall call]; intros [= <-]; reflexivity.
Qed.

(** X17: with the bundled [MCPClientImpl] a connected turn whose proposal
    is a function call ends in an error in one case only.  The planner
    always passes an arguments value that is neither [null] nor
    [undefined], so the destructuring in [callTool] never throws; the call
    rejects exactly when a property it puts into a template literal cannot
    be converted to a string (an object with a [toString] member of its
    own), and the turn then shows [Error: Cannot convert object to
    primitive value] and records the user turn only.  Otherwise [callTool]
    resolves, and the history gains the user turn and the fabricated text
    as a model turn.  The numbers inside the arguments are taken to be safe
    integers. *)
Theorem bundled_client_turn_outcomes
    (toLowerCase : string → string) (message : string)
    (ui : Container (C := Impl.MCPClientImpl)) (c : Impl.MCPClientImpl)
    (r : GeminiResponse) (fc : FunctionCall) :
  client ui = Some c → isConnected ui = true →
  generateContent toLowerCase (addUserMessage message (gemini ui)) (tools ui) = Resolved r →
  functionCall r = Some fc →
  safe (args fc) = true →
  if unconvertible (fn fc) (args fc)
  then history (handleSendMessage toLowerCase message ui) = history ui ++ [user_turn message]
       ∧ last_message (handleSendMessage toLowerCase message ui)
         = Some "Error: Cannot convert object to primitive value"
  else ∃ txt, fabricated (fn fc) (args fc) txt
         ∧ history (handleSendMessage toLowerCase message ui)
           = history ui ++ [user_turn message; model_turn txt]
         ∧ last_message (handleSendMessage toLowerCase message ui) = Some txt.
Proof.
  intros Hc Hconn Hgen Hfc _.
  pose proof (proposal_arguments_not_nullish _ _ _ _ _ Hgen Hfc) as Hargs.
  destruct (ClientProps.callTool_facts (fn fc) (args fc) c (toLocaleTimeString (world ui)).2)
    as (_ & _ & Hres).
  rewrite Hargs, andb_false_r in Hres.
  destruct (Impl.callTool (fn fc) (args fc) c (toLocaleTimeString (world ui)).2)
    as [[res c'] w'] eqn:Hcall.
  cbn [fst] in Hres.
  destruct (unconvertible (fn fc) (args fc)).
  - subst res.
    destruct (@rejected_tool_call_turn toLowerCase _ MCPClientImpl_client message ui c c' w' r fc
                not_primitive Hc Hconn Hgen Hfc Hcall) as (ui2 & -> & Hhist).
    split; [exact Hhist|].
    unfold last_message. cbn [messages setIsLoading]. by rewrite say_messages, last_snoc.
  - destruct Hres as (txt & -> & Hfab). exists txt. split; [exact Hfab|].
    destruct (@resolved_tool_call_turn toLowerCase _ MCPClientImpl_client message ui c c' w' r fc
                (text_result txt) Hc Hconn Hgen Hfc Hcall) as (ui2 & -> & Hhist).
    split; [exact Hhist|].
    unfold last_message. cbn [messages setIsLoading]. by rewrite say_messages, last_snoc.
Qed.

Lemma bundled_client_turn_outcomes_witness :
  (history (handleSendMessage Server.lower "who is it" poisoned_session)
   = history poisoned_session ++ [user_turn "who is it"]
   ∧ last_message (handleSendMessage Server.lower "who is it" poisoned_session)
     = Some "Error: Cannot convert object to primitive value")
  ∧ ∃ txt, fabricated "adder" (JObj [("a", JNum 2); ("b", JNum 3)]) txt
      ∧ history (handleSendMessage Server.lower "add 2 and 3" chatty_session)
        = history chatty_session ++ [user_turn "add 2 and 3"; model_turn txt]
      ∧ last_message (handleSendMessage Server.lower "add 2 and 3" chatty_session) = Some txt.
Proof.
  split.
  - apply (bundled_client_turn_outcomes Server.lower "who is it" poisoned_session
             ready_client
             {| functionCall := Some poisoned_call; text_of := None |}
             poisoned_call); reflexivity.
  - apply (bundled_client_turn_outcomes Server.lower "add 2 and 3" chatty_session
             ready_client
             {| functionCall := Some {| fn := "adder"; args := JObj [("a", JNum 2); ("b", JNum 3)] |};
                text_of := Some "Let me add those." |}
             {| fn := "adder"; args := JObj [("a", JNum 2); ("b", JNum 3)] |}); reflexivity.
Defined.

End ChatExtras.

(** * Further properties of the client's MCP stub and provider *)

Module ClientExtras.

Import Client Client.Impl ClientTerms ClientMoreTerms ClientProps.

Lemma hex_digit_is_hex (n : N) : is_hex (hex_digit n) = true.
Proof.
  destruct n as [|p]; [reflexivity|].
  do 5 (try destruct p as [p|p|]); reflexivity.
Qed.

Lemma variant_digit (r : N) : is_variant (hex_digit (N.lor (N.land r 3) 8)) = true.
Proof.
  change 3%N with (N.ones 2). rewrite N.land_ones. change (2 ^ 2)%N with 4%N.
  assert (Hlt : (r mod 4 < 4)%N) by (apply N.mod_lt; discriminate).
  generalize dependent (r mod 4)%N. intros m Hlt.
  assert (Hcases : (m = 0 ∨ m = 1 ∨ m = 2 ∨ m = 3)%N) by lia.
  destruct Hcases as [-> | [-> | [-> | ->]]]; reflexivity.
Qed.

Lemma fill_template_cons (c : ascii) (tpl : string) (w : World) :
  fill_template (String c tpl) w
  = if Ascii.eqb c "x" || Ascii.eqb c "y" then
      let '(r, w1) := random_below 16 w in
      let v := if Ascii.eqb c "x" then r else N.lor (N.land r 3) 8 in
      let '(s, w2) := fill_template tpl w1 in
      (String (hex_digit v) s, w2)
    else
      let '(s, w1) := fill_template tpl w in
      (String c s, w1).
Proof. reflexivity. Qed.

Lemma instantiates_cons (c d : ascii) (tpl s : string) :
  instantiates (String c tpl) (String d s)
  = (if Ascii.eqb c "x" then is_hex d
     else if Ascii.eqb c "y" then is_variant d
     else Ascii.eqb c d)
    && instantiates tpl s.
Proof. reflexivity. Qed.

Lemma placeholders_cons (c : ascii) (tpl : string) :
  placeholders (String c tpl)
  = ((if Ascii.eqb c "x" || Ascii.eqb c "y" then 1 else 0) + placeholders tpl)%nat.
Proof. reflexivity. Qed.

Lemma fill_template_shape (tpl : string) (w : World) :
  instantiates tpl (fill_template tpl w).1 = true
  ∧ used (entropy (fill_template tpl w).2) = (used (entropy w) + placeholders tpl)%nat.
Proof.
  revert w. induction tpl as [|c tpl IH]; intros w.
  { split; [reflexivity|]. cbn [fill_template snd placeholders]. lia. }
  rewrite fill_template_cons, placeholders_cons.
  destruct (Ascii.eqb c "x") eqn:Hx; [|destruct (Ascii.eqb c "y") eqn:Hy]; cbn [orb].
  - unfold random_below, floor_random.
    specialize (IH (with_entropy
      {| draws := draws (entropy w); used := S (used (entropy w)) |} w)).
    destruct (fill_template tpl _) as [s w2]. cbn [fst snd] in *.
    destruct IH as [Hs Hu]. rewrite instantiates_cons, Hx, hex_digit_is_hex, Hs, Hu.
    split; [done|]. cbn [with_entropy entropy used]. lia.
  - unfold random_below, floor_random.
    specialize (IH (with_entropy
      {| draws := draws (entropy w); used := S (used (entropy w)) |} w)).
    destruct (fill_template tpl _) as [s w2]. cbn [fst snd] in *.
    destruct IH as [Hs Hu]. rewrite instantiates_cons, Hx, Hy, variant_digit, Hs, Hu.
    split; [done|]. cbn [with_entropy entropy used]. lia.
  - specialize (IH w). destruct (fill_template tpl w) as [s w1]. cbn [fst snd] in *.
    destruct IH as [Hs Hu]. rewrite instantiates_cons, Hx, Hy, Ascii.eqb_refl, Hs, Hu.
    split; [done|]. lia.
Qed.

(** X18: whatever [Math.random] yields, [generateUUID] returns a string of
    36 characters that instantiates its template -- hyphens after 8, 12,
    16 and 20 digits, the version digit 4, a variant digit among 8, 9, a,
    b, lower-case hex digits elsewhere -- and it draws exactly 31 random
    numbers. *)
Theorem generateUUID_is_version_4 (w : World) :
  instantiates "xxxxxxxx-xxxx-4xxx-yxxx-xxxxxxxxxxxx" (generateUUID w).1 = true
  ∧ String.length (generateUUID w).1 = 36%nat
  ∧ used (entropy (generateUUID w).2) = (used (entropy w) + 31)%nat.
Proof.
  destruct (fill_template_shape uuid_template w) as [Hshape Hused].
  split; [exact Hshape|]. split; [apply generateUUID_length|exact Hused].
Qed.

(** X19: [listTools] always resolves with the same two hard-coded
    descriptors, [github-repo-info] and [twitter-X-post], without issuing
    a request; it leaves the client connected, and asking again returns
    the identical list and changes nothing. *)
Theorem listTools_is_fixed (c : MCPClientImpl) (w : World) :
  (listTools c w).1.1 = Resolved known_tools
  ∧ map name known_tools = ["github-repo-info"; "twitter-X-post"]
  ∧ connected (listTools c w).1.2 = true
  ∧ network (listTools c w).2 = network w
  ∧ listTools (listTools c w).1.2 (listTools c w).2
    = (Resolved known_tools, (listTools c w).1.2, (listTools c w).2).
Proof.
  unfold listTools.
  destruct (ensure_connected_spec c w) as [Hconn Hnet].
  destruct (ensure_connected c w) as [c1 w1]. cbn [fst snd] in *.
  split; [reflexivity|]. split; [reflexivity|]. split; [exact Hconn|]. split; [exact Hnet|].
  unfold ensure_connected. by rewrite Hconn.
Qed.

(** X20: for a string status the reply the client fabricates for
    [twitter-X-post] is, draw for draw, the text the server's second
    revision of [createPost] reports when it has no Twitter client. *)
Theorem client_tweet_reply_mirrors_server_mock (status : string) (w : World) :
  (fabricate "twitter-X-post" (JObj [("status", JStr status)]) w).1
  = (Tools.V2.createPost None status (entropy w)).1.
Proof. reflexivity. Qed.

End ClientExtras.

Module ProviderExtras.

Import Client Provider ClientProps.

(** X21: [initMCP] and [reconnect] cannot fail: the provider always ends
    with a connected client, the two hard-coded tools, no error and the
    loading flag cleared, and no request has been sent to any server. *)
Theorem provider_always_connects (env : option string) (st : Provided) (w : World) :
  ∀ run, run = initMCP ∨ run = reconnect →
  ∃ c, client (run env st w).1 = Some c
    ∧ Impl.connected c = true
    ∧ tools (run env st w).1 = Impl.known_tools
    ∧ isConnected (run env st w).1 = true
    ∧ isLoading (run env st w).1 = false
    ∧ error (run env st w).1 = None
    ∧ network (run env st w).2 = network w.
Proof.
  assert (Hest : ∃ c w', establish env st w
            = (Resolved tt,
               {| client := Some c; tools := Impl.known_tools; isConnected := true;
                  isLoading := true; error := None |}, w')
            ∧ Impl.connected c = true ∧ network w' = network w).
  { unfold establish.
    change (@connect Impl.MCPClientImpl MCPClientImpl_client) with Impl.connect.
    change (@listTools Impl.MCPClientImpl MCPClientImpl_client) with Impl.listTools.
    destruct (connect_facts (Impl.new None env) w) as (H1 & H2 & _ & H4).
    destruct (Impl.connect (Impl.new None env) w) as [[res c1] w1]. cbn [fst snd] in *.
    subst res. unfold Impl.listTools, Impl.ensure_connected. rewrite H2.
    exists c1, w1. by split. }
  destruct Hest as (c & w' & Hest & Hc & Hnet).
  intros run [-> | ->]; unfold initMCP, reconnect; rewrite Hest; exists c; by repeat split.
Qed.

Lemma provider_always_connects_witness :
  ∃ c, client (initMCP None initial
                 {| entropy := {| draws := λ _, 0%N; used := 0 |}; clock := λ _, "";
                    ticks := 0; network := [] |}).1 = Some c
    ∧ Impl.connected c = true
    ∧ tools (initMCP None initial
               {| entropy := {| draws := λ _, 0%N; used := 0 |}; clock := λ _, "";
                  ticks := 0; network := [] |}).1 = Impl.known_tools
    ∧ isConnected (initMCP None initial
               {| entropy := {| draws := λ _, 0%N; used := 0 |}; clock := λ _, "";
                  ticks := 0; network := [] |}).1 = true
    ∧ isLoading (initMCP None initial
               {| entropy := {| draws := λ _, 0%N; used := 0 |}; clock := λ _, "";
                  ticks := 0; network := [] |}).1 = false
    ∧ error (initMCP None initial
               {| entropy := {| draws := λ _, 0%N; used := 0 |}; clock := λ _, "";
                  ticks := 0; network := [] |}).1 = None
    ∧ network (initMCP None initial
               {| entropy := {| draws := λ _, 0%N; used := 0 |}; clock := λ _, "";
                  ticks := 0; network := [] |}).2 = [].
Proof.
  apply (provider_always_connects None initial
           {| entropy := {| draws := λ _, 0%N; used := 0 |}; clock := λ _, "";
              ticks := 0; network := [] |} initMCP).
  by left.
Defined.

End ProviderExtras.

(** * Properties of the fetching tool handlers *)

Module HandlerExtras.

Import Handlers HandlerTerms.

Lemma percent_encoded (c : ascii) : all_chars is_encoded_char (percent c) = true.
Proof.
  unfold percent. cbn [all_chars].
  assert (Hhex : ∀ n, is_encoded_char (HEX_digit n) = true).
  { intros n. destruct n as [|p]; [reflexivity|].
    do 5 (try destruct p as [p|p|]); reflexivity. }
  by rewrite !Hhex.
Qed.

Lemma all_chars_app (p : ascii → bool) (a b : string) :
  all_chars p (a +:+ b) = all_chars p a && all_chars p b.
Proof.
  induction a as [|c a IH]; [done|].
  change (String c a +:+ b) with (String c (a +:+ b)). cbn [all_chars].
  by rewrite IH, andb_assoc.
Qed.

Lemma encodeURIComponent_encoded (s : string) :
  all_chars is_encoded_char (encodeURIComponent s) = true.
Proof.
  induction s as [|c s IH]; [done|]. cbn [encodeURIComponent].
  destruct (is_unreserved c) eqn:Hc.
  - cbn [all_chars]. unfold is_encoded_char at 1. by rewrite Hc, IH.
  - by rewrite all_chars_app, percent_encoded, IH.
Qed.

Lemma encodeURIComponent_unreserved (s : string) :
  all_chars is_unreserved s = true → encodeURIComponent s = s.
Proof.
  induction s as [|c s IH]; [done|]. cbn [all_chars encodeURIComponent].
  intros [Hc Hs]%andb_prop. by rewrite Hc, IH.
Qed.

Lemma all_chars_excludes (p : ascii → bool) (s : string) (c : ascii) :
  all_chars p s = true → p c = false → includes s (String c "") = false.
Proof.
  intros Hs Hc. induction s as [|d s IH]; [done|].
  cbn [all_chars] in Hs. apply andb_prop in Hs as [Hd Hs].
  cbn [includes]. rewrite (IH Hs), orb_false_r.
  unfold startsWith. cbn [strip_prefix].
  destruct (Ascii.eqb c d) eqn:Hcd; [|done].
  apply Ascii.eqb_eq in Hcd. congruence.
Qed.

(** X22: [encodeURIComponent] yields unreserved characters and percent
    escapes only, so the encoded text contains no slash, question mark,
    ampersand, equals sign, hash or space; and it leaves a text of
    unreserved characters as it is. *)
Theorem encodeURIComponent_is_safe (s : string) :
  all_chars is_encoded_char (encodeURIComponent s) = true
  ∧ includes (encodeURIComponent s) "/" = false
  ∧ includes (encodeURIComponent s) "?" = false
  ∧ includes (encodeURIComponent s) "&" = false
  ∧ includes (encodeURIComponent s) "=" = false
  ∧ includes (encodeURIComponent s) "#" = false
  ∧ includes (encodeURIComponent s) " " = false
  ∧ (all_chars is_unreserved s = true → encodeURIComponent s = s).
Proof.
  pose proof (encodeURIComponent_encoded s) as Henc.
  split; [exact Henc|].
  do 6 (split; [by apply (all_chars_excludes is_encoded_char)|]).
  apply encodeURIComponent_unreserved.
Qed.

(** X23: the [github-repo-info] handler never rejects.  When the request
    fails, the status is not ok or the body does not decode, its text is
    [Failed to fetch repository info for owner/repo]; otherwise it is the
    repository card, in which a description that is [null] or empty reads
    [No description]. *)
Theorem github_handler_reports_failures
    (fetch : Fetch GitHubRepoResponse) (owner repo : string) :
  github_repo_info fetch owner repo
  = Resolved (text_result
      match decoded fetch (github_url owner repo) with
      | Some data => github_card data
      | None => "Failed to fetch repository info for " +:+ owner +:+ "/" +:+ repo
      end)
  ∧ ∀ data, truthy_str (description data) = false →
      github_card data
      = github_card {| full_name := full_name data; description := Some "No description";
                       stargazers_count := stargazers_count data;
                       forks_count := forks_count data;
                       open_issues_count := open_issues_count data;
                       html_url := html_url data |}.
Proof.
  split.
  - unfold github_repo_info, decoded.
    destruct (fetch (github_url owner repo)) as [response|err]; [|reflexivity].
    cbn [and_then]. destruct (ok response); cbn [negb]; [|reflexivity].
    by destruct (json response).
  - intros data Hd. unfold github_card. cbn [description full_name stargazers_count
      forks_count open_issues_count html_url]. by rewrite Hd.
Qed.

(** X24: for a query that is well-formed text (the strings here are
    UTF-8, so there is no lone surrogate for [encodeURIComponent] to throw
    on) the [wikipedia-search] handler never rejects and asks for one URL
    only, the summary path followed by the encoded query.  A response that
    is not ok is answered with the error text naming the query; a failed
    request or an undecodable body with the fixed text [An error occurred
    while trying to fetch Wikipedia data.] *)
Theorem wikipedia_handler_reports_failures
    (fetch : Fetch WikipediaResponse) (query : string) :
  (∃ t, wikipedia_search fetch query = Resolved (text_result t))
  ∧ (∀ other : Fetch WikipediaResponse,
       other (wikipedia_url query) = fetch (wikipedia_url query) →
       wikipedia_search other query = wikipedia_search fetch query)
  ∧ (∀ response, fetch (wikipedia_url query) = Resolved response → ok response = false →
       wikipedia_search fetch query
       = Resolved (text_result (ESC +:+ "[1;31mError:" +:+ ESC +:+ "[0m " +:+ ESC
                                +:+ "[31mFailed to fetch Wikipedia summary for " +:+ DQUOTE
                                +:+ query +:+ DQUOTE +:+ "." +:+ ESC +:+ "[0m" +:+ LF)))
  ∧ (decoded fetch (wikipedia_url query) = None →
     (∀ response, fetch (wikipedia_url query) = Resolved response → ok response = true) →
     wikipedia_search fetch query
     = Resolved (text_result "An error occurred while trying to fetch Wikipedia data.")).
Proof.
  unfold wikipedia_search, decoded.
  split; [|split; [|split]].
  - destruct (fetch (wikipedia_url query)) as [response|err]; [|by eexists].
    cbn [and_then]. destruct (ok response); cbn [negb]; [|by eexists].
    destruct (json response); by eexists.
  - intros other Hsame. by rewrite Hsame.
  - intros response Hf Hok. rewrite Hf. cbn [and_then]. by rewrite Hok.
  - destruct (fetch (wikipedia_url query)) as [response|err]; [|reflexivity].
    intros Hd Hok. pose proof (Hok response eq_refl) as Hok'.
    cbn [and_then]. rewrite Hok' in Hd |- *. cbn [negb].
    destruct (json response) as [data|err]; [discriminate Hd | reflexivity].
Qed.

Lemma headlines_spec (index : nat) (items : list NewsItem) :
  headlines index items
  = if forallb complete items then Resolved (listing index items)
    else Rejected (Error "Cannot read properties of undefined (reading '0')").
Proof.
  revert index. induction items as [|item rest IH]; intros index; [reflexivity|].
  cbn [headlines forallb listing]. rewrite IH. unfold headline.
  destruct item as [[[|title ?]|] [[|link ?]|]];
    cbn [complete item_title item_link first_printed and_then printed andb];
    by destruct (forallb complete rest).
Qed.

Lemma listing_length (index : nat) (items : list NewsItem) :
  length (listing index items) = length items.
Proof.
  revert index. induction items as [|item rest IH]; intros index; [reflexivity|].
  cbn [listing length]. by rewrite IH.
Qed.

(** X25: for a topic that is well-formed text the [news-by-topic] handler
    never rejects, and only the first five items of the feed count.  A
    failure anywhere between the request and the parsed feed gives the
    fixed failure text, and so does one of those items that lacks its
    title or its link element, whose first string the handler reads; a
    feed without items gives the no-news text naming the topic; otherwise
    the text is the heading and one numbered headline for each of those
    items. *)
Theorem news_handler_lists_five_at_most (feed : Feed) (topic : string) :
  ∃ t, news_by_topic feed topic = Resolved (text_result t)
    ∧ match feed (news_url topic) with
      | Rejected _ => t = news_failed
      | Resolved None | Resolved (Some []) => t = no_news topic
      | Resolved (Some items) =>
          if forallb complete (take 5 items)
          then t = "Top News for " +:+ DQUOTE +:+ topic +:+ DQUOTE +:+ ":" +:+ LF +:+ LF
                   +:+ join LF (listing 0 (take 5 items))
               ∧ length (listing 0 (take 5 items)) = Nat.min 5 (length items)
          else t = news_failed
      end.
Proof.
  unfold news_by_topic.
  destruct (feed (news_url topic)) as [[[|item items]|]|err]; cbn [and_then try_catch].
  - by eexists.
  - change (length (take 5 (item :: items)) =? 0)%nat with false. cbv iota.
    rewrite headlines_spec.
    destruct (forallb complete (take 5 (item :: items))); cbn [and_then try_catch].
    + eexists. split; [reflexivity|]. split; [reflexivity|].
      by rewrite listing_length, length_take.
    + by eexists.
  - by eexists.
  - by eexists.
Qed.

End HandlerExtras.
